(** * Voxset: row-cached access to a Geosoft voxel (geosoft/gxpy/voxset.py)

    A shallow embedding of the [Voxset] class.  A Python float is an IEEE
    binary64 value ([PrimFloat.float]), a Python int is a [Z].  Methods are
    computations over the object and the world around it (file system,
    resource registry, the log of storage reads); an exception keeps the
    mutations made before it was raised, as in Python. *)

From Stdlib Require Import ZArith List String Ascii Bool Floats Lia.
Import ListNotations.
Local Open Scope string_scope.
Local Open Scope Z_scope.

Set Implicit Arguments.

(** ** Exceptions and results *)

Inductive exn : Type :=
| StopIteration
| IndexError
| TypeError
| ValueError
| OverflowError
| ZeroDivisionError
| AttributeError
| OSError
| GXAPIError          (* raised inside the GX library *)
| VoxsetException.    (* class VoxsetException(Exception) *)

Inductive result (A : Type) : Type :=
| Ok (a : A)
| Raise (e : exn).

Arguments Ok {A} a.
Arguments Raise {A} e.

(** ** Values held in a numpy buffer *)

Inductive scalar : Type :=
| SInt (n : Z)
| SFloat (f : float).

(** [int(v)]: exact on integers, truncation toward zero on floats. *)
Definition py_int (v : scalar) : result Z :=
  match v with
  | SInt n => Ok n
  | SFloat f =>
      match Prim2SF f with
      | S754_nan => Raise ValueError
      | S754_infinity _ => Raise OverflowError
      | S754_zero _ => Ok 0
      | S754_finite sg m e =>
          let a := if 0 <=? e then Z.pos m * 2 ^ e else Z.pos m / 2 ^ (- e) in
          Ok (if sg then - a else a)
      end
  end.

(** [np.isnan(v)] *)
Definition np_isnan (v : scalar) : bool :=
  match v with
  | SInt _ => false
  | SFloat f => PrimFloat.is_nan f
  end.

(** [a[i]] on a one-dimensional numpy array: a negative index counts from the
    end, anything outside [-len, len) raises IndexError. *)
Definition np_getitem {A : Type} (a : list A) (i : Z) : result A :=
  let n := Z.of_nat (List.length a) in
  if (i <? - n) || (n <=? i) then Raise IndexError
  else
    match nth_error a (Z.to_nat (if i <? 0 then i + n else i)) with
    | Some x => Ok x
    | None => Raise IndexError
    end.

(** Subscripting an attribute that may still be [None]. *)
Definition py_subscript {A : Type} (a : option (list A)) (i : Z) : result A :=
  match a with
  | None => Raise TypeError
  | Some l => np_getitem l i
  end.

(** [a // b] and [a % b] on ints: floor division, ZeroDivisionError on 0. *)
Definition py_floordiv (a b : Z) : result Z :=
  if b =? 0 then Raise ZeroDivisionError else Ok (a / b).

Definition py_mod (a b : Z) : result Z :=
  if b =? 0 then Raise ZeroDivisionError else Ok (a mod b).

(** [a != b] where [a] is a float or None and [b] a float. *)
Definition py_ne (a : option float) (b : float) : bool :=
  match a with
  | None => true
  | Some x => negb (PrimFloat.eqb x b)
  end.

(** [a != b] where [a] is an int or None and [b] an int. *)
Definition py_ne_int (a : option Z) (b : Z) : bool :=
  match a with
  | None => true
  | Some x => negb (x =? b)
  end.

(** Truth value of [self._open]: None and 0 are false. *)
Definition truthy (o : option Z) : bool :=
  match o with
  | None => false
  | Some z => negb (z =? 0)
  end.

(** ** What the module takes from outside this file

    [gxapi] constants, helpers of [gxpy.utility] and [gxpy.gx], and the
    [os.path] functions of the platform. *)

Class GXEnv : Type := {
  rDUMMY : float;                        (* gxapi.rDUMMY *)
  iDUMMY : Z;                            (* gxapi.iDUMMY *)
  dtype : Type;                          (* numpy dtype *)
  dtype_gx : Z -> dtype;                 (* gxu.dtype_gx *)
  is_int : Z -> bool;                    (* gxu.is_int *)
  PyDict : Type;
  xml_from_dict : option PyDict -> string;     (* gxu.xml_from_dict *)
  GXIPJ : Type;                          (* gxapi.GXIPJ *)
  Registry : Type;                       (* resources tracked by gxpy.gx *)
  track_resource : string -> string -> Registry -> Z * Registry;
  pop_resource : Z -> Registry -> Registry;
  splitext : string -> string * string;  (* os.path.splitext *)
  basename : string -> string;           (* os.path.basename *)
  relpath : string -> string;            (* os.path.relpath, from the cwd *)
  lower : string -> string               (* str.lower *)
}.

(** Modelled from the spec: gxu.dummy_to_nan (gxpy/utility.py is not part of
    the sources at hand).  "Convert sentinel values in the buffer to NaN for
    floating-point types"; an integer entry is left as it is. *)
Definition dummy_to_nan1 `{GXEnv} (v : scalar) : scalar :=
  match v with
  | SInt n => SInt n
  | SFloat f => if PrimFloat.eqb f rDUMMY then SFloat nan else SFloat f
  end.

Definition dummy_to_nan `{GXEnv} (a : list scalar) : list scalar :=
  map dummy_to_nan1 a.

(** ** Files on disk, as [delete_files] sees them *)

Record Disk : Type := mkDisk {
  present : list string;        (* the paths that exist *)
  refused : string -> bool      (* paths os.remove refuses: a directory, no permission *)
}.

(** A name with an embedded NUL character. *)
Fixpoint has_nul (s : string) : bool :=
  match s with
  | EmptyString => false
  | String a r => Ascii.eqb a "000" || has_nul r
  end.

(** [os.remove(fn)]: ValueError on a name with an embedded NUL, OSError when
    the path is missing or refused. *)
Definition os_remove (fn : string) (d : Disk) : result unit * Disk :=
  if has_nul fn then (Raise ValueError, d)
  else if existsb (String.eqb fn) (present d) && negb (refused d fn)
  then (Ok tt,
        mkDisk (filter (fun p => negb (String.eqb fn p)) (present d)) (refused d))
  else (Raise OSError, d).

(** The inner [df] of [delete_files]: an OSError is passed over. *)
Definition df (fn : string) (d : Disk) : result unit * Disk :=
  match os_remove fn d with
  | (Raise OSError, d') => (Ok tt, d')
  | r => r
  end.

Definition delete_files (voxset_name : option string) (d : Disk)
  : result unit * Disk :=
  match voxset_name with
  | None => (Ok tt, d)
  | Some voxset_name =>
      match df voxset_name d with
      | (Ok _, d') => df (voxset_name ++ ".xml") d'
      | r => r
      end
  end.

Section Voxset.

Context `{GX : GXEnv}.

(** ** The storage handle (gxapi.GXVOX) and its pager (gxapi.GXPG) *)

Record GXPG : Type := mkGXPG {
  (* the row of plane [iz] and row [iy]; None when the library rejects it *)
  pg_row : Z -> Z -> option (list scalar)
}.

Record GXVOX : Type := mkGXVOX {
  info_type : Z;
  info_array : Z;
  info_nx : Z;
  info_ny : Z;
  info_nz : Z;
  simple_location : float * float * float * float * float * float;
  location_points : list float * list float * list float;
  area : float * float * float * float * float * float;
  ipj : GXIPJ;
  pager : GXPG
}.

(** gxvv.GXvv: a typed vector and its contents. *)
Record GXvv : Type := mkGXvv {
  vv_dtype : option dtype;
  vv_data : list scalar
}.

(** ** The world outside the object *)

Record World : Type := mkWorld {
  fs_writable : string -> bool;           (* can [open(path, 'w+')] succeed *)
  fs_writes : list (string * string);     (* files written, latest first *)
  voxel_files : string -> option GXVOX;   (* what GXVOX.create finds at a path *)
  registry : Registry;
  row_reads : list (Z * Z)                (* read_row_3d calls (plane, row), latest first *)
}.

(** ** The object *)

(** Attributes assigned once by [__init__]. *)
Record Header : Type := mkHeader {
  _file_name : string;
  _name : string;
  _metadata : option PyDict;
  _metadata_changed : bool;
  _metadata_root : string;
  _dtype : dtype;
  _is_int : bool;
  _nx : Z;
  _ny : Z;
  _nz : Z;
  _max_iter : Z;
  _x0 : float;
  _y0 : float;
  _z0 : float;
  _dx : float;
  _dy : float;
  _dz : float
}.

Record Voxset : Type := mkVoxset {
  hdr : Header;
  _readonly : option bool;
  _gxvox : option GXVOX;
  _cs : option GXIPJ;
  _next : Z;
  _xloc : option (list float);
  _yloc : option (list float);
  _zloc : option (list float);
  _pg_ : option GXPG;
  _vv_ : option GXvv;
  _buffered_plane : option Z;
  _buffered_row : option Z;
  _buffer_np : option (list scalar);     (* None: attribute not yet set *)
  _open : option Z
}.

Record St : Type := mkSt {
  self : Voxset;
  world : World
}.

(** Attribute assignment. *)

Definition set_readonly (x : option bool) (v : Voxset) : Voxset :=
  mkVoxset (hdr v) x (_gxvox v) (_cs v) (_next v) (_xloc v) (_yloc v)
    (_zloc v) (_pg_ v) (_vv_ v) (_buffered_plane v) (_buffered_row v)
    (_buffer_np v) (_open v).

Definition set_gxvox (x : option GXVOX) (v : Voxset) : Voxset :=
  mkVoxset (hdr v) (_readonly v) x (_cs v) (_next v) (_xloc v) (_yloc v)
    (_zloc v) (_pg_ v) (_vv_ v) (_buffered_plane v) (_buffered_row v)
    (_buffer_np v) (_open v).

Definition set_cs (x : option GXIPJ) (v : Voxset) : Voxset :=
  mkVoxset (hdr v) (_readonly v) (_gxvox v) x (_next v) (_xloc v) (_yloc v)
    (_zloc v) (_pg_ v) (_vv_ v) (_buffered_plane v) (_buffered_row v)
    (_buffer_np v) (_open v).

Definition set_next (x : Z) (v : Voxset) : Voxset :=
  mkVoxset (hdr v) (_readonly v) (_gxvox v) (_cs v) x (_xloc v) (_yloc v)
    (_zloc v) (_pg_ v) (_vv_ v) (_buffered_plane v) (_buffered_row v)
    (_buffer_np v) (_open v).

Definition set_xloc (x : option (list float)) (v : Voxset) : Voxset :=
  mkVoxset (hdr v) (_readonly v) (_gxvox v) (_cs v) (_next v) x (_yloc v)
    (_zloc v) (_pg_ v) (_vv_ v) (_buffered_plane v) (_buffered_row v)
    (_buffer_np v) (_open v).

Definition set_yloc (x : option (list float)) (v : Voxset) : Voxset :=
  mkVoxset (hdr v) (_readonly v) (_gxvox v) (_cs v) (_next v) (_xloc v) x
    (_zloc v) (_pg_ v) (_vv_ v) (_buffered_plane v) (_buffered_row v)
    (_buffer_np v) (_open v).

Definition set_zloc (x : option (list float)) (v : Voxset) : Voxset :=
  mkVoxset (hdr v) (_readonly v) (_gxvox v) (_cs v) (_next v) (_xloc v)
    (_yloc v) x (_pg_ v) (_vv_ v) (_buffered_plane v) (_buffered_row v)
    (_buffer_np v) (_open v).

Definition set_pg (x : option GXPG) (v : Voxset) : Voxset :=
  mkVoxset (hdr v) (_readonly v) (_gxvox v) (_cs v) (_next v) (_xloc v)
    (_yloc v) (_zloc v) x (_vv_ v) (_buffered_plane v) (_buffered_row v)
    (_buffer_np v) (_open v).

Definition set_vv (x : option GXvv) (v : Voxset) : Voxset :=
  mkVoxset (hdr v) (_readonly v) (_gxvox v) (_cs v) (_next v) (_xloc v)
    (_yloc v) (_zloc v) (_pg_ v) x (_buffered_plane v) (_buffered_row v)
    (_buffer_np v) (_open v).

Definition set_buffered_plane (x : option Z) (v : Voxset) : Voxset :=
  mkVoxset (hdr v) (_readonly v) (_gxvox v) (_cs v) (_next v) (_xloc v)
    (_yloc v) (_zloc v) (_pg_ v) (_vv_ v) x (_buffered_row v)
    (_buffer_np v) (_open v).

Definition set_buffered_row (x : option Z) (v : Voxset) : Voxset :=
  mkVoxset (hdr v) (_readonly v) (_gxvox v) (_cs v) (_next v) (_xloc v)
    (_yloc v) (_zloc v) (_pg_ v) (_vv_ v) (_buffered_plane v) x
    (_buffer_np v) (_open v).

Definition set_buffer_np (x : option (list scalar)) (v : Voxset) : Voxset :=
  mkVoxset (hdr v) (_readonly v) (_gxvox v) (_cs v) (_next v) (_xloc v)
    (_yloc v) (_zloc v) (_pg_ v) (_vv_ v) (_buffered_plane v)
    (_buffered_row v) x (_open v).

Definition set_open (x : option Z) (v : Voxset) : Voxset :=
  mkVoxset (hdr v) (_readonly v) (_gxvox v) (_cs v) (_next v) (_xloc v)
    (_yloc v) (_zloc v) (_pg_ v) (_vv_ v) (_buffered_plane v)
    (_buffered_row v) (_buffer_np v) x.

Definition log_write (path content : string) (w : World) : World :=
  mkWorld (fs_writable w) ((path, content) :: fs_writes w) (voxel_files w)
    (registry w) (row_reads w).

Definition set_registry (r : Registry) (w : World) : World :=
  mkWorld (fs_writable w) (fs_writes w) (voxel_files w) r (row_reads w).

Definition log_read (iz iy : Z) (w : World) : World :=
  mkWorld (fs_writable w) (fs_writes w) (voxel_files w) (registry w)
    ((iz, iy) :: row_reads w).

(** ** Computations: state and exceptions *)

Definition M (A : Type) : Type := St -> result A * St.

Definition ret {A : Type} (a : A) : M A := fun s => (Ok a, s).

Definition raise {A : Type} (e : exn) : M A := fun s => (Raise e, s).

Definition bind {A B : Type} (m : M A) (k : A -> M B) : M B :=
  fun s =>
    match m s with
    | (Ok a, s') => k a s'
    | (Raise e, s') => (Raise e, s')
    end.

Definition lift {A : Type} (r : result A) : M A := fun s => (r, s).

(** Read an attribute of [self]. *)
Definition attr {A : Type} (f : Voxset -> A) : M A :=
  fun s => (Ok (f (self s)), s).

(** Assign attributes of [self]. *)
Definition assign (f : Voxset -> Voxset) : M unit :=
  fun s => (Ok tt, mkSt (f (self s)) (world s)).

(** Act on the world. *)
Definition effect (f : World -> World) : M unit :=
  fun s => (Ok tt, mkSt (self s) (f (world s))).

Notation "x <- m ;; k" := (bind m (fun x => k))
  (at level 61, m at next level, right associativity).
Notation "m ;; k" := (bind m (fun _ => k))
  (at level 61, right associativity).

(** ** File names *)

Definition _voxset_file_name (name : string) : string :=
  let ext := snd (splitext name) in
  let name :=
    if negb (String.eqb (lower ext) ".geosoft_voxel")
    then name ++ ".geosoft_voxel" else name in
  relpath name.

Definition _voxset_name (name : string) : string :=
  let basename := basename name in
  fst (splitext basename).

Definition MODE_READ : Z := 0.
Definition MODE_READWRITE : Z := 1.
Definition MODE_NEW : Z := 2.

(** ** Construction *)

(** [Voxset.__init__(self, name, gxvox)], in a world [w]. *)
Definition __init__ (name : string) (gxvox : GXVOX) (w : World) : St :=
  let file_name := _voxset_file_name name in
  let name := _voxset_name file_name in
  let ityp := info_type gxvox in
  let '(x0, y0, z0, dx, dy, dz) := simple_location gxvox in
  let h :=
    mkHeader file_name name None false "" (dtype_gx ityp) (is_int ityp)
      (info_nx gxvox) (info_ny gxvox) (info_nz gxvox)
      (info_nx gxvox * info_ny gxvox * info_nz gxvox)
      x0 y0 z0 dx dy dz in
  let '(res, reg) := track_resource "Voxset" name (registry w) in
  mkSt
    (mkVoxset h None (Some gxvox) None 0 None None None None None None None
       None (Some res))
    (set_registry reg w).

(** [Voxset.open(name, mode)]; [gxapi.GXVOX.create] fails on a path that holds
    no voxel. *)
Definition open (name : string) (mode : option Z) (w : World) : result St :=
  match voxel_files w (_voxset_file_name name) with
  | None => Raise GXAPIError
  | Some gxvox =>
      let vox := __init__ name gxvox w in
      let mode := match mode with None => MODE_READ | Some m => m end in
      Ok (mkSt (set_readonly (Some (mode =? MODE_READ)) (self vox)) (world vox))
  end.

(** ** Properties *)

Definition name : M string := attr (fun v => _name (hdr v)).

Definition file_name : M string := attr (fun v => _file_name (hdr v)).

Definition gxvox : M (option GXVOX) := attr _gxvox.

(** A method call on [self.gxvox]: AttributeError once the handle is None. *)
Definition gxvox_method {A : Type} (f : GXVOX -> A) : M A :=
  g <- gxvox;;
  match g with
  | Some h => ret (f h)
  | None => raise AttributeError
  end.

Definition nx : M Z := attr (fun v => _nx (hdr v)).

Definition ny : M Z := attr (fun v => _ny (hdr v)).


Definition dx : M (option float) :=
  d <- attr (fun v => _dx (hdr v));;
  if PrimFloat.eqb d rDUMMY then ret None
  else attr (fun v => Some (_dx (hdr v))).

Definition dy : M (option float) :=
  d <- attr (fun v => _dy (hdr v));;
  if PrimFloat.eqb d rDUMMY then ret None
  else attr (fun v => Some (_dx (hdr v))).

Definition dz : M (option float) :=
  d <- attr (fun v => _dz (hdr v));;
  if PrimFloat.eqb d rDUMMY then ret None
  else attr (fun v => Some (_dz (hdr v))).

Definition x0 : M float := attr (fun v => _x0 (hdr v)).

Definition y0 : M float := attr (fun v => _y0 (hdr v)).

Definition z0 : M float := attr (fun v => _z0 (hdr v)).

Definition uniform_dx : M bool := d <- dx;; ret (py_ne d rDUMMY).

Definition uniform_dy : M bool := d <- dy;; ret (py_ne d rDUMMY).

Definition uniform_dz : M bool := d <- dz;; ret (py_ne d rDUMMY).

Definition extent : M (float * float * float * float * float * float) :=
  gxvox_method area.

Definition extent_2d : M (float * float * float * float) :=
  ex <- extent;;
  let '(ex0, ex1, _, ex3, ex4, _) := ex in
  ret (ex0, ex1, ex3, ex4).

Definition coordinate_system : M (option GXIPJ) :=
  c <- attr _cs;;
  match c with
  | None =>
      i <- gxvox_method ipj;;
      assign (set_cs (Some i))
  | Some _ => ret tt
  end;;
  attr _cs.

Definition _location_arrays : M unit :=
  p <- gxvox_method location_points;;
  let '(xvv, yvv, zvv) := p in
  assign (set_xloc (Some xvv));;
  assign (set_yloc (Some yvv));;
  assign (set_zloc (Some zvv)).

Definition x_locations : M (option (list float)) :=
  l <- attr _xloc;;
  match l with None => _location_arrays | Some _ => ret tt end;;
  attr _xloc.

Definition y_locations : M (option (list float)) :=
  l <- attr _yloc;;
  match l with None => _location_arrays | Some _ => ret tt end;;
  attr _yloc.

Definition z_locations : M (option (list float)) :=
  l <- attr _zloc;;
  match l with None => _location_arrays | Some _ => ret tt end;;
  attr _zloc.

Definition _pg : M (option GXPG) :=
  p <- attr _pg_;;
  match p with
  | None =>
      g <- gxvox_method pager;;
      assign (set_pg (Some g))
  | Some _ => ret tt
  end;;
  attr _pg_.

Definition _vv : M (option GXvv) :=
  b <- attr _vv_;;
  match b with
  | None =>
      assign (fun v => set_vv (Some (mkGXvv (Some (_dtype (hdr v))) [])) v)
  | Some _ => ret tt
  end;;
  attr _vv_.

Definition _release_pg : M unit := assign (set_pg None).

Definition xyz (ix iy iz : Z) : M (float * float * float) :=
  xs <- x_locations;;
  x <- lift (py_subscript xs ix);;
  ys <- y_locations;;
  y <- lift (py_subscript ys iy);;
  zs <- z_locations;;
  z <- lift (py_subscript zs iz);;
  ret (x, y, z).

(** ** Cell access *)

(** [pg.read_row_3d(iz, iy, b, n, vv.gxvv)]: one read of the storage, which
    fills the vector that [self._vv_] refers to. *)
Definition read_row_3d (pg : option GXPG) (iz iy b n : Z) : M unit :=
  match pg with
  | None => raise AttributeError
  | Some p =>
      effect (log_read iz iy);;
      match pg_row p iz iy with
      | None => raise GXAPIError
      | Some r =>
          let data := firstn (Z.to_nat n) (skipn (Z.to_nat b) r) in
          assign (fun v =>
            set_vv (option_map (fun b => mkGXvv (vv_dtype b) data) (_vv_ v)) v)
      end
  end.

(** [vv.np], where [vv] is the object [self._vv_] refers to. *)
Definition vv_np : M (option (list scalar)) :=
  attr (fun v => option_map (@vv_data) (_vv_ v)).

(** [self._buffer_np[ix]]; the attribute exists only after a first read. *)
Definition buffer_item (ix : Z) : M scalar :=
  b <- attr _buffer_np;;
  match b with
  | None => raise AttributeError
  | Some a => lift (np_getitem a ix)
  end.

Inductive Item : Type :=
| ItemInt (item : Z)
| ItemTuple (ix iy iz : Z).

(** The index triple [__getitem__] works with. *)
Definition item_index (item : Item) : M (Z * Z * Z) :=
  match item with
  | ItemInt item =>
      n_x <- nx;;
      n_y <- ny;;
      iz <- lift (py_floordiv item (n_x * n_y));;
      let item := item - iz * n_x * n_y in
      ix <- lift (py_mod item n_x);;
      iy <- lift (py_floordiv item n_x);;
      ret (ix, iy, iz)
  | ItemTuple ix iy iz => ret (ix, iy, iz)
  end.

Definition Cell : Type := (float * float * float * option scalar)%type.

Definition __getitem__ (item : Item) : M Cell :=
  idx <- item_index item;;
  let '(ix, iy, iz) := idx in
  p <- xyz ix iy iz;;
  let '(x, y, z) := p in
  bp <- attr _buffered_plane;;
  br <- attr _buffered_row;;
  (if py_ne_int bp iz || py_ne_int br iy then
     assign (set_buffered_plane (Some iz));;
     assign (set_buffered_row (Some iy));;
     _vv;;
     pg <- _pg;;
     n <- attr (fun v => _nx (hdr v));;
     read_row_3d pg iz iy 0 n;;
     a <- vv_np;;
     assign (set_buffer_np a);;
     isint <- attr (fun v => _is_int (hdr v));;
     if negb isint
     then assign (fun v => set_buffer_np (option_map dummy_to_nan (_buffer_np v)) v)
     else ret tt
   else ret tt);;
  v <- buffer_item ix;;
  isint <- attr (fun v => _is_int (hdr v));;
  if isint then
    n <- lift (py_int v);;
    ret (x, y, z, if n =? iDUMMY then None else Some (SInt n))
  else if np_isnan v then ret (x, y, z, None)
  else ret (x, y, z, Some v).

(** ** Iteration *)

Definition __iter__ : M unit := ret tt.

Definition __next__ : M Cell :=
  n <- attr _next;;
  m <- attr (fun v => _max_iter (hdr v));;
  if m <=? n then
    assign (set_next 0);;
    raise StopIteration
  else
    v <- __getitem__ (ItemInt n);;
    assign (fun o => set_next (_next o + 1) o);;
    ret v.

(** [list(vox)], the cells a [for] loop over the voxset sees: [__next__] until
    StopIteration; any other exception leaves the loop.  [None] when the fuel
    runs out first. *)
Fixpoint iterate (fuel : nat) (s : St) : option (result (list Cell) * St) :=
  match fuel with
  | O => None
  | S fuel' =>
      match __next__ s with
      | (Raise StopIteration, s') => Some (Ok [], s')
      | (Raise e, s') => Some (Raise e, s')
      | (Ok c, s') =>
          match iterate fuel' s' with
          | Some (Ok cs, s'') => Some (Ok (c :: cs), s'')
          | r => r
          end
      end
  end.

(** A sequence of cell accesses, up to the first that raises. *)
Fixpoint getitems (items : list Item) : M (list Cell) :=
  match items with
  | [] => ret []
  | i :: rest =>
      c <- __getitem__ i;;
      cs <- getitems rest;;
      ret (c :: cs)
  end.

(** ** Closing *)

(** [with open(path, 'w+') as f: f.write(content)] *)
Definition write_file (path content : string) : M unit :=
  fun s =>
    if fs_writable (world s) path
    then effect (log_write path content) s
    else raise OSError s.

Definition _close (pop : bool) : M unit :=
  o <- attr _open;;
  if truthy o then
    changed <- attr (fun v => _metadata_changed (hdr v));;
    (if changed then
       n <- attr (fun v => _name (hdr v));;
       md <- attr (fun v => _metadata (hdr v));;
       write_file (n ++ ".xml") (xml_from_dict md)
     else ret tt);;
    (if pop then
       match o with
       | Some r => effect (fun w => set_registry (pop_resource r (registry w)) w)
       | None => ret tt
       end
     else ret tt);;
    assign (set_open None);;
    assign (set_gxvox None);;
    assign (set_cs None);;
    assign (set_pg None);;
    assign (set_vv None)
  else ret tt.

Definition close : M unit := _close true.

Definition __del__ : M unit := _close true.

Definition __enter__ : M unit := ret tt.

Definition __exit__ : M unit := __del__.

End Voxset.

(** ** What the storage holds, and when an object is in step with it *)

Section Specification.

Context `{GX : GXEnv}.

Definition xs_of (g : GXVOX) : list float := fst (fst (location_points g)).
Definition ys_of (g : GXVOX) : list float := snd (fst (location_points g)).
Definition zs_of (g : GXVOX) : list float := snd (location_points g).

Definition in_range (g : GXVOX) (ix iy iz : Z) : Prop :=
  0 <= ix < info_nx g /\ 0 <= iy < info_ny g /\ 0 <= iz < info_nz g.

(** The linear index of a triple. *)
Definition linear (g : GXVOX) (ix iy iz : Z) : Z :=
  iz * info_nx g * info_ny g + iy * info_nx g + ix.

(** The decoding of a linear index in the words of the specification:
    [iz = i // (nx*ny)], [r = i % (nx*ny)], [ix = r % nx], [iy = r // nx]. *)
Definition decode_spec (n_x n_y i : Z) : Z * Z * Z :=
  let iz := i / (n_x * n_y) in
  let r := i mod (n_x * n_y) in
  (r mod n_x, r / n_x, iz).

(** The value stored at a point, as the pager delivers it. *)
Definition stored (g : GXVOX) (ix iy iz : Z) : scalar :=
  match pg_row (pager g) iz iy with
  | Some r => nth (Z.to_nat ix) r (SInt 0)
  | None => SInt 0
  end.

(** The value a cell access reports for a stored value. *)
Definition value_of (isint : bool) (raw : scalar) : option scalar :=
  if isint then
    match py_int raw with
    | Ok n => if n =? iDUMMY then None else Some (SInt n)
    | Raise _ => None
    end
  else
    let c := dummy_to_nan1 raw in
    if np_isnan c then None else Some c.

Definition the_cell (g : GXVOX) (ix iy iz : Z) : Cell :=
  (nth (Z.to_nat ix) (xs_of g) 0%float,
   nth (Z.to_nat iy) (ys_of g) 0%float,
   nth (Z.to_nat iz) (zs_of g) 0%float,
   value_of (is_int (info_type g)) (stored g ix iy iz)).

Definition zrange (n : Z) : list Z := map Z.of_nat (seq 0 (Z.to_nat n)).

(** All cells, X fastest, then Y, then Z. *)
Definition all_cells (g : GXVOX) : list Cell :=
  flat_map (fun iz =>
    flat_map (fun iy =>
      map (fun ix => the_cell g ix iy iz) (zrange (info_nx g)))
      (zrange (info_ny g)))
    (zrange (info_nz g)).

(** The cell at a linear index. *)
Definition linear_cell (g : GXVOX) (i : Z) : Cell :=
  the_cell g (i mod info_nx g) (i / info_nx g mod info_ny g)
    (i / (info_nx g * info_ny g)).

(** The cells of one row, as a sequence of accesses. *)
Definition row_items (g : GXVOX) (iy iz : Z) : list Item :=
  map (fun ix => ItemTuple ix iy iz) (zrange (info_nx g)).

Definition is_SInt (v : scalar) : Prop := exists n, v = SInt n.

(** The storage agrees with its own header: positive dimensions, location
    arrays of those lengths, a row of [nx] values at every (plane, row), of
    integers when the type is an integer type. *)
Record storage_ok (g : GXVOX) : Prop := {
  ok_nx : 0 < info_nx g;
  ok_ny : 0 < info_ny g;
  ok_nz : 0 < info_nz g;
  ok_xs : Z.of_nat (List.length (xs_of g)) = info_nx g;
  ok_ys : Z.of_nat (List.length (ys_of g)) = info_ny g;
  ok_zs : Z.of_nat (List.length (zs_of g)) = info_nz g;
  ok_rows : forall iz iy, 0 <= iz < info_nz g -> 0 <= iy < info_ny g ->
    exists r, pg_row (pager g) iz iy = Some r /\
              Z.of_nat (List.length r) = info_nx g /\
              (is_int (info_type g) = true -> Forall is_SInt r)
}.

(** What the row buffer holds once row [r] was read into it. *)
Definition buffer_of (isint : bool) (n : Z) (r : list scalar) : list scalar :=
  let data := firstn (Z.to_nat n) (skipn (Z.to_nat 0) r) in
  if isint then data else dummy_to_nan data.

(** The object is open on [g]: its header is the one read from [g], and what
    it has cached is what [g] holds. *)
Record attached (g : GXVOX) (v : Voxset) : Prop := {
  att_gxvox : _gxvox v = Some g;
  att_nx : _nx (hdr v) = info_nx g;
  att_ny : _ny (hdr v) = info_ny g;
  att_nz : _nz (hdr v) = info_nz g;
  att_max : _max_iter (hdr v) = info_nx g * info_ny g * info_nz g;
  att_is_int : _is_int (hdr v) = is_int (info_type g);
  att_locs :
    (_xloc v = None /\ _yloc v = None /\ _zloc v = None) \/
    (_xloc v = Some (xs_of g) /\ _yloc v = Some (ys_of g) /\
     _zloc v = Some (zs_of g));
  att_pg : _pg_ v = None \/ _pg_ v = Some (pager g);
  att_cache : forall iz iy,
    _buffered_plane v = Some iz -> _buffered_row v = Some iy ->
    exists r, pg_row (pager g) iz iy = Some r /\
              _buffer_np v =
              Some (buffer_of (is_int (info_type g)) (info_nx g) r)
}.

(** The row the cache holds is the row [(iz, iy)]. *)
Definition cached (v : Voxset) (iz iy : Z) : bool :=
  negb (py_ne_int (_buffered_plane v) iz || py_ne_int (_buffered_row v) iy).

End Specification.

Arguments Header {GX}.
Arguments Voxset {GX}.
Arguments St {GX}.
Arguments World {GX}.
Arguments GXVOX {GX}.
Arguments GXvv {GX}.

(** ** An environment to evaluate the model in

    The constants are those of the GX API; the [os.path] functions are the
    POSIX ones, with [relpath] taken at plain file names of the working
    directory, which it returns as they are. *)

Module Demo.

Definition lower_ascii (c : ascii) : ascii :=
  let n := nat_of_ascii c in
  if (Nat.leb 65 n && Nat.leb n 90)%bool then ascii_of_nat (n + 32) else c.

Fixpoint str_lower (s : string) : string :=
  match s with
  | EmptyString => EmptyString
  | String c r => String (lower_ascii c) (str_lower r)
  end.

Fixpoint rfind_from (c : ascii) (s : string) (i found : Z) : Z :=
  match s with
  | EmptyString => found
  | String a r => rfind_from c r (i + 1) (if Ascii.eqb a c then i else found)
  end.

(** [s.rfind(c)]: the last position of [c], or -1. *)
Definition rfind (c : ascii) (s : string) : Z := rfind_from c s 0 (-1).

(** [s[a:b]] for [0 <= a]. *)
Definition str_slice (s : string) (a b : Z) : string :=
  substring (Z.to_nat a) (Z.to_nat (b - a)) s.

Fixpoint all_dots (s : string) : bool :=
  match s with
  | EmptyString => true
  | String a r => Ascii.eqb a "." && all_dots r
  end.

Definition posix_splitext (p : string) : string * string :=
  let sepIndex := rfind "/" p in
  let dotIndex := rfind "." p in
  let n := Z.of_nat (String.length p) in
  if (sepIndex <? dotIndex) && negb (all_dots (str_slice p (sepIndex + 1) dotIndex))
  then (str_slice p 0 dotIndex, str_slice p dotIndex n)
  else (p, "").

Definition posix_basename (p : string) : string :=
  str_slice p (rfind "/" p + 1) (Z.of_nat (String.length p)).

Fixpoint xml_of_items (d : list (string * string)) : string :=
  match d with
  | [] => ""
  | (k, v) :: r => "<" ++ k ++ ">" ++ v ++ "</" ++ k ++ ">" ++ xml_of_items r
  end.

#[local] Instance geosoft : GXEnv := {|
  rDUMMY := (-0x1.3b8b5b5056e17p+106)%float;     (* -1e32 *)
  iDUMMY := -2147483647;
  dtype := Z;
  dtype_gx := fun t => t;
  is_int := fun t => negb ((t =? 4) || (t =? 5));  (* GS_FLOAT, GS_DOUBLE *)
  PyDict := list (string * string);
  xml_from_dict := fun md =>
    match md with None => "" | Some d => xml_of_items d end;
  GXIPJ := string;
  Registry := list (Z * (string * string));
  track_resource := fun cls info reg =>
    let id := 1 + Z.of_nat (List.length reg) in (id, (id, (cls, info)) :: reg);
  pop_resource := fun id reg => filter (fun r => negb (fst r =? id)) reg;
  splitext := posix_splitext;
  basename := posix_basename;
  relpath := fun p => p;
  lower := str_lower
|}.

(** The voxel of the worked scenario: 2 x 2 x 1 points at the origin, unit
    spacing, values 1 2 / 3 4, of type double. *)
Definition demo_rows (iz iy : Z) : option (list scalar) :=
  if iz =? 0 then
    if iy =? 0 then Some [SFloat 1; SFloat 2]
    else if iy =? 1 then Some [SFloat 3; SFloat 4]
    else None
  else None.

Definition demo_vox : GXVOX :=
  mkGXVOX 5 0 2 2 1 (0, 0, 0, 1, 1, 1)%float
    ([0; 1], [0; 1], [0])%float (0, 0, 0, 1, 1, 0)%float
    "WGS 84" (mkGXPG demo_rows).

Definition demo_world : World :=
  mkWorld (fun _ => true) []
    (fun p => if String.eqb p "demo.geosoft_voxel" then Some demo_vox else None)
    [] [].

Definition demo : St := __init__ "demo" demo_vox demo_world.

(** The same voxel with other spacings. *)
Definition spaced_vox (dx dy dz : float) : GXVOX :=
  mkGXVOX 5 0 2 2 1 (0, 0, 0, dx, dy, dz)%float
    ([0; 1], [0; 1], [0])%float (0, 0, 0, 1, 1, 0)%float
    "WGS 84" (mkGXPG demo_rows).

(** X spacing 1, Y spacing 2, Z spacing 4. *)
Definition skew : St := __init__ "demo" (spaced_vox 1 2 4) demo_world.

(** Non-uniform in X (the sentinel), uniform in Y and Z. *)
Definition nonuniform : St :=
  __init__ "demo" (spaced_vox rDUMMY 2 4) demo_world.

(** A voxel of 64-bit integers, type GS_LONG64, whose second cell is a dummy:
    gxapi.GS_S8DM is what a vector of [np.int64] holds for a dummy
    (tests/test_vv.py, [get_data(np.int64)]). *)
Definition GS_LONG64 : Z := 8.

Definition GS_S8DM : Z := -9223372036854775807.

Definition long64_rows (iz iy : Z) : option (list scalar) :=
  if (iz =? 0) && (iy =? 0) then Some [SInt 7; SInt GS_S8DM] else None.

Definition long64_vox : GXVOX :=
  mkGXVOX GS_LONG64 0 2 1 1 (0, 0, 0, 1, 1, 1)%float
    ([0; 1], [0], [0])%float (0, 0, 0, 1, 0, 0)%float
    "WGS 84" (mkGXPG long64_rows).

Definition long64_world : World :=
  mkWorld (fun _ => true) []
    (fun p => if String.eqb p "long64.geosoft_voxel" then Some long64_vox else None)
    [] [].

(** [Voxset.open('long64')] *)
Definition long64 : St :=
  match open "long64" None long64_world with
  | Ok s => s
  | Raise _ => demo
  end.


Example demo_names :
  _file_name (hdr (self demo)) = "demo.geosoft_voxel" /\
  _name (hdr (self demo)) = "demo".
Proof. split; reflexivity. Qed.

Example demo_iterates :
  option_map fst (iterate 5 demo) =
  Some (Ok [ (0, 0, 0, Some (SFloat 1)); (1, 0, 0, Some (SFloat 2));
             (0, 1, 0, Some (SFloat 3)); (1, 1, 0, Some (SFloat 4)) ]%float).
Proof. vm_compute. reflexivity. Qed.

End Demo.

(** * Properties *)

Section Properties.

Context `{GX : GXEnv}.

(** ** Running a computation *)

Lemma bind_run {A B : Type} (m : M A) (k : A -> M B) (s s' : St) (a : A) :
  m s = (Ok a, s') -> bind m k s = k a s'.
Proof. intros E. unfold bind. rewrite E. reflexivity. Qed.

Lemma bind_raise {A B : Type} (m : M A) (k : A -> M B) (s s' : St) (e : exn) :
  m s = (Raise e, s') -> bind m k s = (Raise e, s').
Proof. intros E. unfold bind. rewrite E. reflexivity. Qed.

(** Unfold the plumbing of a computation and reduce what it exposes. *)
Ltac run :=
  cbv beta iota zeta delta
    [bind attr assign effect ret raise lift gxvox gxvox_method];
  simpl.

(** ** numpy subscripts *)

Lemma np_getitem_ok {A : Type} (d : A) (l : list A) (i : Z) :
  0 <= i < Z.of_nat (List.length l) ->
  np_getitem l i = Ok (nth (Z.to_nat i) l d).
Proof.
  intros Hi. unfold np_getitem.
  replace (i <? - Z.of_nat (List.length l)) with false by (symmetry; apply Z.ltb_ge; lia).
  replace (Z.of_nat (List.length l) <=? i) with false by (symmetry; apply Z.leb_gt; lia).
  replace (i <? 0) with false by (symmetry; apply Z.ltb_ge; lia).
  simpl. rewrite (nth_error_nth' l d) by lia. reflexivity.
Qed.

Lemma np_getitem_out {A : Type} (l : list A) (i : Z) :
  i < - Z.of_nat (List.length l) \/ Z.of_nat (List.length l) <= i ->
  np_getitem l i = Raise IndexError.
Proof.
  intros Hi. unfold np_getitem.
  destruct Hi as [Hi | Hi].
  - replace (i <? - Z.of_nat (List.length l)) with true by (symmetry; apply Z.ltb_lt; lia).
    reflexivity.
  - replace (Z.of_nat (List.length l) <=? i) with true by (symmetry; apply Z.leb_le; lia).
    rewrite orb_true_r. reflexivity.
Qed.

Lemma np_getitem_wrap {A : Type} (d : A) (l : list A) (i : Z) :
  - Z.of_nat (List.length l) <= i < 0 ->
  np_getitem l i = Ok (nth (Z.to_nat (i + Z.of_nat (List.length l))) l d).
Proof.
  intros Hi. unfold np_getitem.
  replace (i <? - Z.of_nat (List.length l)) with false by (symmetry; apply Z.ltb_ge; lia).
  replace (Z.of_nat (List.length l) <=? i) with false by (symmetry; apply Z.leb_gt; lia).
  replace (i <? 0) with true by (symmetry; apply Z.ltb_lt; lia).
  simpl. rewrite (nth_error_nth' l d) by lia. reflexivity.
Qed.

(** ** Coordinates *)

(** The object once the location arrays are loaded. *)
Definition load (g : GXVOX) (v : Voxset) : Voxset :=
  set_zloc (Some (zs_of g)) (set_yloc (Some (ys_of g)) (set_xloc (Some (xs_of g)) v)).

Lemma load_attached g v : attached g v -> attached g (load g v).
Proof.
  intros [H1 H2 H3 H4 H5 H6 H7 H8 H9].
  constructor; simpl; auto.
Qed.

Lemma np_getitem_raises {A : Type} (l : list A) (i : Z) (e : exn) :
  np_getitem l i = Raise e -> e = IndexError.
Proof.
  unfold np_getitem.
  destruct ((i <? - Z.of_nat (List.length l)) || (Z.of_nat (List.length l) <=? i)).
  - congruence.
  - destruct (nth_error l _); congruence.
Qed.

(** The coordinates of a point, from the location arrays. *)
Definition xyz_pure (g : GXVOX) (ix iy iz : Z) : result (float * float * float) :=
  match np_getitem (xs_of g) ix with
  | Raise e => Raise e
  | Ok x =>
      match np_getitem (ys_of g) iy with
      | Raise e => Raise e
      | Ok y =>
          match np_getitem (zs_of g) iz with
          | Raise e => Raise e
          | Ok z => Ok (x, y, z)
          end
      end
  end.

Lemma xyz_run g v w ix iy iz :
  attached g v ->
  xyz ix iy iz (mkSt v w) = (xyz_pure g ix iy iz, mkSt (load g v) w).
Proof.
  intros [H1 H2 H3 H4 H5 H6 H7 H8 H9].
  destruct v as [h ro gv cs nxt xl yl zl pg vv bp br buf op].
  simpl in *. subst gv.
  unfold xyz, xyz_pure, x_locations, y_locations, z_locations,
    _location_arrays, load, xs_of, ys_of, zs_of in *.
  destruct (location_points g) as [[xs ys] zs] eqn:E.
  destruct H7 as [(-> & -> & ->) | (-> & -> & ->)]; run; rewrite ?E; run.
  all: destruct (np_getitem xs ix) as [x | ex]; run; try reflexivity.
  all: destruct (np_getitem ys iy) as [y | ey]; run; try reflexivity.
  all: destruct (np_getitem zs iz) as [z | ez]; run; reflexivity.
Qed.

Lemma xyz_pure_in_range g ix iy iz :
  storage_ok g -> in_range g ix iy iz ->
  xyz_pure g ix iy iz =
  Ok (nth (Z.to_nat ix) (xs_of g) 0%float,
      nth (Z.to_nat iy) (ys_of g) 0%float,
      nth (Z.to_nat iz) (zs_of g) 0%float).
Proof.
  intros Hg (Hx & Hy & Hz). unfold xyz_pure.
  rewrite (np_getitem_ok 0%float) by (rewrite (ok_xs Hg); lia).
  rewrite (np_getitem_ok 0%float) by (rewrite (ok_ys Hg); lia).
  rewrite (np_getitem_ok 0%float) by (rewrite (ok_zs Hg); lia).
  reflexivity.
Qed.

(** ** One cell access *)

Lemma buffer_of_item isint n r ix :
  Z.of_nat (List.length r) = n -> 0 <= ix < n ->
  np_getitem (buffer_of isint n r) ix =
  Ok (if isint then nth (Z.to_nat ix) r (SInt 0)
      else dummy_to_nan1 (nth (Z.to_nat ix) r (SInt 0))).
Proof.
  intros Hn Hix. unfold buffer_of. simpl skipn.
  rewrite firstn_all2 by lia.
  destruct isint.
  - apply np_getitem_ok. lia.
  - unfold dummy_to_nan.
    rewrite (np_getitem_ok (dummy_to_nan1 (SInt 0))) by (rewrite length_map; lia).
    rewrite map_nth. reflexivity.
Qed.

(** The object after row [(iz, iy)] was fetched into the buffer. *)
Definition fetch (g : GXVOX) (iz iy : Z) (v : Voxset) : Voxset :=
  match pg_row (pager g) iz iy with
  | None => v
  | Some r =>
      set_buffer_np (Some (buffer_of (_is_int (hdr v)) (_nx (hdr v)) r))
        (set_vv
           (Some (mkGXvv
              (match _vv_ v with
               | Some b => vv_dtype b
               | None => Some (_dtype (hdr v))
               end)
              (firstn (Z.to_nat (_nx (hdr v))) r)))
           (let v1 := set_buffered_row (Some iy) (set_buffered_plane (Some iz) v) in
            match _pg_ v with
            | None => set_pg (Some (pager g)) v1
            | Some _ => v1
            end))
  end.

(** The state a cell access in range leaves behind. *)
Definition accessed (g : GXVOX) (iz iy : Z) (s : St) : St :=
  if cached (self s) iz iy then mkSt (load g (self s)) (world s)
  else mkSt (fetch g iz iy (load g (self s))) (log_read iz iy (world s)).

Lemma firstn_item n r ix :
  Z.of_nat (List.length r) = n -> 0 <= ix < n ->
  np_getitem (firstn (Z.to_nat n) r) ix = Ok (nth (Z.to_nat ix) r (SInt 0)).
Proof. intros Hn Hix. exact (buffer_of_item true r Hn Hix). Qed.

Lemma firstn_nan_item n r ix :
  Z.of_nat (List.length r) = n -> 0 <= ix < n ->
  np_getitem (dummy_to_nan (firstn (Z.to_nat n) r)) ix =
  Ok (dummy_to_nan1 (nth (Z.to_nat ix) r (SInt 0))).
Proof. intros Hn Hix. exact (buffer_of_item false r Hn Hix). Qed.

Lemma py_int_typed r ix :
  Forall is_SInt r -> (Z.to_nat ix < List.length r)%nat ->
  exists n, nth (Z.to_nat ix) r (SInt 0) = SInt n.
Proof.
  intros Hr Hix. rewrite Forall_forall in Hr.
  apply Hr. apply nth_In. exact Hix.
Qed.

Lemma cached_true v iz iy :
  cached v iz iy = true <->
  _buffered_plane v = Some iz /\ _buffered_row v = Some iy.
Proof.
  unfold cached, py_ne_int.
  destruct (_buffered_plane v) as [p | ], (_buffered_row v) as [q | ];
    rewrite ?orb_true_r; simpl;
    try (split; [discriminate | intros [? ?]; discriminate]).
  destruct (Z.eqb_spec p iz), (Z.eqb_spec q iy); simpl; split; intros H;
    try discriminate; try (destruct H; congruence); subst; auto.
Qed.

Lemma getitem_tuple_run g s ix iy iz :
  storage_ok g -> attached g (self s) -> in_range g ix iy iz ->
  __getitem__ (ItemTuple ix iy iz) s = (Ok (the_cell g ix iy iz), accessed g iz iy s).
Proof.
  intros Hg Ha Hr. destruct s as [v w]. simpl in Ha.
  unfold __getitem__.
  erewrite bind_run by reflexivity. cbv beta iota.
  erewrite bind_run by (rewrite (xyz_run _ _ _ _ Ha), (xyz_pure_in_range Hg Hr); reflexivity).
  cbv beta iota.
  destruct Hr as (Hx & Hy & Hz).
  destruct (ok_rows Hg Hz Hy) as (r & Er & Lr & Tr).
  unfold accessed; simpl self; simpl world.
  pose proof (att_cache Ha) as Hc.
  pose proof (att_nx Ha) as Hnx. pose proof (att_is_int Ha) as Hint.
  pose proof (att_gxvox Ha) as Hgv. pose proof (att_pg Ha) as Hpg.
  assert (Hraw : is_int (info_type g) = true ->
                 exists n, nth (Z.to_nat ix) r (SInt 0) = SInt n).
  { intros Hi. apply py_int_typed; [auto | lia]. }
  unfold the_cell, stored, value_of. rewrite Er.
  destruct (cached v iz iy) eqn:Ehit.
  - (* the row is the cached one *)
    apply cached_true in Ehit. destruct Ehit as (Ep & Eq).
    destruct (Hc _ _ Ep Eq) as (r' & Er' & Eb).
    assert (r' = r) by congruence. subst r'.
    unfold cached in *. run. rewrite Ep, Eq. unfold py_ne_int.
    rewrite !Z.eqb_refl. run. unfold buffer_item. run. rewrite Eb. run.
    rewrite (buffer_of_item _ _ Lr Hx). rewrite Hint.
    destruct (is_int (info_type g)) eqn:Ei.
    + destruct (Hraw eq_refl) as (n & ->). reflexivity.
    + destruct (np_isnan _); reflexivity.
  - (* another row: it is fetched *)
    unfold cached in Ehit. apply negb_false_iff in Ehit.
    run. rewrite Ehit. run. unfold _vv, _pg. run.
    unfold fetch. rewrite Er. unfold buffer_of.
    destruct (_vv_ v) as [b | ] eqn:Evv; run.
    all: destruct Hpg as [Epg | Epg]; rewrite Epg; run; rewrite ?Hgv; run.
    all: unfold read_row_3d; run; rewrite ?Epg; run.
    all: rewrite Er; run; rewrite ?Evv; run.
    all: rewrite Hint, Hnx; destruct (is_int (info_type g)) eqn:Ei; run.
    all: unfold buffer_item; run.
    all: rewrite ?(firstn_item _ Lr Hx), ?(firstn_nan_item _ Lr Hx); run.
    all: rewrite ?Hint; try (destruct (Hraw eq_refl) as (n & ->); run; reflexivity).
    all: destruct (np_isnan _); reflexivity.
Qed.

Lemma accessed_cached g s iy iz :
  storage_ok g -> 0 <= iy < info_ny g -> 0 <= iz < info_nz g ->
  cached (self (accessed g iz iy s)) iz iy = true.
Proof.
  intros Hg Hy Hz. destruct (ok_rows Hg Hz Hy) as (r & Er & _).
  unfold accessed. destruct (cached (self s) iz iy) eqn:E; simpl.
  - apply cached_true in E. apply cached_true. simpl. exact E.
  - apply cached_true. unfold fetch. rewrite Er. simpl.
    destruct (_pg_ (self s)); simpl; auto.
Qed.

Lemma accessed_attached g s iy iz :
  storage_ok g -> 0 <= iy < info_ny g -> 0 <= iz < info_nz g ->
  attached g (self s) -> attached g (self (accessed g iz iy s)).
Proof.
  intros Hg Hy Hz Ha. destruct (ok_rows Hg Hz Hy) as (r & Er & _).
  pose proof (load_attached Ha) as Hl.
  unfold accessed. destruct (cached (self s) iz iy) eqn:E; simpl; [exact Hl | ].
  destruct Hl as [H1 H2 H3 H4 H5 H6 H7 H8 H9].
  unfold fetch. rewrite Er.
  constructor; simpl in *.
  - destruct (_pg_ (self s)); simpl; auto.
  - destruct (_pg_ (self s)); simpl; auto.
  - destruct (_pg_ (self s)); simpl; auto.
  - destruct (_pg_ (self s)); simpl; auto.
  - destruct (_pg_ (self s)); simpl; auto.
  - destruct (_pg_ (self s)); simpl; auto.
  - destruct (_pg_ (self s)); simpl; auto.
  - destruct (_pg_ (self s)) eqn:Ep; simpl; auto.
    destruct H8 as [H8 | H8]; [discriminate | ]. rewrite Ep. auto.
  - intros iz' iy' Ep Eq.
    assert (iz' = iz /\ iy' = iy) as (-> & ->).
    { destruct (_pg_ (self s)); simpl in Ep, Eq; split; congruence. }
    exists r. split; [exact Er | ]. rewrite H2, H6. reflexivity.
Qed.

Lemma accessed_next g s iy iz :
  _next (self (accessed g iz iy s)) = _next (self s).
Proof.
  unfold accessed, fetch.
  destruct (cached (self s) iz iy); simpl; [reflexivity | ].
  destruct (pg_row (pager g) iz iy); simpl; [ | reflexivity].
  destruct (_pg_ (self s)); reflexivity.
Qed.

Lemma accessed_reads g s iy iz :
  row_reads (world (accessed g iz iy s)) =
  ((if cached (self s) iz iy then [] else [(iz, iy)]) ++ row_reads (world s))%list.
Proof. unfold accessed. destruct (cached (self s) iz iy); reflexivity. Qed.

(** ** Linear indices *)

Lemma linear_decode n_x n_y ix iy iz :
  0 <= ix < n_x -> 0 <= iy < n_y ->
  let i := iz * n_x * n_y + iy * n_x + ix in
  i / (n_x * n_y) = iz /\
  (i - iz * n_x * n_y) mod n_x = ix /\
  (i - iz * n_x * n_y) / n_x = iy.
Proof.
  intros Hx Hy i. subst i.
  assert (Hb : 0 <= iy * n_x + ix < n_x * n_y) by nia.
  repeat split.
  - symmetry. apply (Z.div_unique _ _ iz (iy * n_x + ix)); [left; lia | lia].
  - replace (iz * n_x * n_y + iy * n_x + ix - iz * n_x * n_y) with (ix + iy * n_x) by lia.
    rewrite Z.mod_add by lia. apply Z.mod_small; lia.
  - replace (iz * n_x * n_y + iy * n_x + ix - iz * n_x * n_y) with (ix + iy * n_x) by lia.
    rewrite Z.div_add by lia. rewrite Z.div_small by lia. lia.
Qed.

(** The decoding written in the code is the one the specification words. *)
Lemma item_index_int_run s i :
  _nx (hdr (self s)) * _ny (hdr (self s)) <> 0 ->
  item_index (ItemInt i) s =
  (Ok (decode_spec (_nx (hdr (self s))) (_ny (hdr (self s))) i), s).
Proof.
  intros Hn. unfold item_index, nx, ny, py_floordiv, py_mod, decode_spec. run.
  destruct (Z.eqb_spec (_nx (hdr (self s)) * _ny (hdr (self s))) 0) as [E | _];
    [contradiction | ].
  destruct (Z.eqb_spec (_nx (hdr (self s))) 0) as [E | _]; [rewrite E in Hn; lia | ].
  replace (i - i / (_nx (hdr (self s)) * _ny (hdr (self s))) * _nx (hdr (self s)) *
             _ny (hdr (self s)))
    with (i mod (_nx (hdr (self s)) * _ny (hdr (self s)))).
  - reflexivity.
  - rewrite Z.mod_eq by exact Hn. lia.
Qed.

Lemma decode_spec_linear n_x n_y ix iy iz :
  0 <= ix < n_x -> 0 <= iy < n_y ->
  decode_spec n_x n_y (iz * n_x * n_y + iy * n_x + ix) = (ix, iy, iz).
Proof.
  intros Hx Hy. unfold decode_spec.
  destruct (linear_decode iz Hx Hy) as (E1 & E2 & E3).
  assert (Em : (iz * n_x * n_y + iy * n_x + ix) mod (n_x * n_y) =
               iz * n_x * n_y + iy * n_x + ix - iz * n_x * n_y).
  { rewrite Z.mod_eq by nia. rewrite E1. lia. }
  rewrite Em, E1, E2, E3. reflexivity.
Qed.

Lemma getitem_linear_same g s ix iy iz :
  attached g (self s) -> 0 <= ix < info_nx g -> 0 <= iy < info_ny g ->
  __getitem__ (ItemInt (linear g ix iy iz)) s = __getitem__ (ItemTuple ix iy iz) s.
Proof.
  intros Ha Hx Hy. unfold __getitem__.
  pose proof (att_nx Ha) as Hnx. pose proof (att_ny Ha) as Hny.
  assert (Hn : _nx (hdr (self s)) * _ny (hdr (self s)) <> 0)
    by (rewrite Hnx, Hny; nia).
  erewrite bind_run by (apply item_index_int_run; exact Hn).
  symmetry. erewrite bind_run by reflexivity. symmetry.
  unfold linear. rewrite Hnx, Hny, (decode_spec_linear iz Hx Hy). reflexivity.
Qed.

(** ** What a computation leaves alone *)

Definition keeps {A B : Type} (f : St -> B) (m : M A) : Prop :=
  forall s, f (snd (m s)) = f s.

Lemma keeps_ret {A B : Type} (f : St -> B) (a : A) : keeps f (ret a).
Proof. intros s. reflexivity. Qed.

Lemma keeps_raise {A B : Type} (f : St -> B) (e : exn) : keeps f (@raise _ A e).
Proof. intros s. reflexivity. Qed.

Lemma keeps_lift {A B : Type} (f : St -> B) (r : result A) : keeps f (lift r).
Proof. intros s. reflexivity. Qed.

Lemma keeps_attr {A B : Type} (f : St -> B) (p : Voxset -> A) : keeps f (attr p).
Proof. intros s. reflexivity. Qed.

Lemma keeps_bind {A B C : Type} (f : St -> C) (m : M A) (k : A -> M B) :
  keeps f m -> (forall a, keeps f (k a)) -> keeps f (bind m k).
Proof.
  intros Hm Hk s. unfold bind.
  specialize (Hm s). destruct (m s) as [[a | e] s']; simpl in *.
  - rewrite Hk. exact Hm.
  - exact Hm.
Qed.

Lemma keeps_assign {B : Type} (f : St -> B) (u : Voxset -> Voxset) :
  (forall v w, f (mkSt (u v) w) = f (mkSt v w)) -> keeps f (assign u).
Proof. intros H [v w]. apply H. Qed.

Lemma keeps_effect {B : Type} (f : St -> B) (u : World -> World) :
  (forall v w, f (mkSt v (u w)) = f (mkSt v w)) -> keeps f (effect u).
Proof. intros H [v w]. apply H. Qed.

Ltac keeps_step :=
  first
    [ apply keeps_ret | apply keeps_raise | apply keeps_lift | apply keeps_attr
    | apply keeps_assign; intros; reflexivity
    | apply keeps_effect; intros; reflexivity
    | apply keeps_bind; [ | intros ]
    | match goal with
      | |- keeps _ (match ?x with _ => _ end) => destruct x
      end ].

Ltac keeps_all := repeat keeps_step.

Definition cursor (s : St) : Z := _next (self s).

Lemma xyz_keeps_cursor ix iy iz : keeps cursor (xyz ix iy iz).
Proof.
  unfold xyz, x_locations, y_locations, z_locations, _location_arrays,
    gxvox_method, gxvox.
  keeps_all.
Qed.

Lemma getitem_keeps_cursor item : keeps cursor (__getitem__ item).
Proof.
  unfold __getitem__.
  apply keeps_bind.
  { unfold item_index, nx, ny. keeps_all. }
  intros [[ix iy] iz].
  apply keeps_bind; [apply xyz_keeps_cursor | intros [[x y] z]].
  unfold _vv, _pg, read_row_3d, vv_np, buffer_item, gxvox_method, gxvox.
  keeps_all.
Qed.

Lemma getitems_keeps_cursor items : keeps cursor (getitems items).
Proof.
  induction items as [ | i rest IH]; simpl.
  - apply keeps_ret.
  - apply keeps_bind; [apply getitem_keeps_cursor | intros c].
    apply keeps_bind; [exact IH | intros cs]. apply keeps_ret.
Qed.

Lemma close_keeps_cursor pop : keeps cursor (_close pop).
Proof.
  unfold _close, write_file. keeps_all.
  intros s. destruct (fs_writable (world s) _); reflexivity.
Qed.

(** ** One step of the iteration *)

Lemma next_stop s :
  _max_iter (hdr (self s)) <= _next (self s) ->
  __next__ s = (Raise StopIteration, mkSt (set_next 0 (self s)) (world s)).
Proof.
  intros H. unfold __next__. run.
  replace (_max_iter (hdr (self s)) <=? _next (self s)) with true
    by (symmetry; apply Z.leb_le; exact H).
  reflexivity.
Qed.

Lemma linear_index_in_range g i :
  storage_ok g -> 0 <= i < info_nx g * info_ny g * info_nz g ->
  in_range g (i mod info_nx g) (i / info_nx g mod info_ny g)
    (i / (info_nx g * info_ny g)).
Proof.
  intros Hg Hi.
  pose proof (ok_nx Hg) as Hx. pose proof (ok_ny Hg) as Hy.
  repeat split.
  - apply Z.mod_pos_bound; lia.
  - apply Z.mod_pos_bound; lia.
  - apply Z.mod_pos_bound; lia.
  - apply Z.mod_pos_bound; lia.
  - apply Z.div_pos; nia.
  - apply Z.div_lt_upper_bound; nia.
Qed.

Lemma decode_spec_linear_cell n_x n_y i :
  0 < n_x -> 0 < n_y ->
  decode_spec n_x n_y i = (i mod n_x, i / n_x mod n_y, i / (n_x * n_y)).
Proof.
  intros Hx Hy. unfold decode_spec.
  assert (E : i mod (n_x * n_y) = i mod n_x + n_x * (i / n_x mod n_y))
    by (apply Z.rem_mul_r; lia).
  rewrite E.
  assert (A : (i mod n_x + n_x * (i / n_x mod n_y)) mod n_x = i mod n_x).
  { rewrite (Z.mul_comm n_x), Z.mod_add by lia. apply Z.mod_mod. lia. }
  assert (B : (i mod n_x + n_x * (i / n_x mod n_y)) / n_x = i / n_x mod n_y).
  { rewrite (Z.mul_comm n_x), Z.div_add by lia.
    rewrite Z.div_small by (apply Z.mod_pos_bound; lia). lia. }
  rewrite A, B. reflexivity.
Qed.

(** The state one iteration step leaves behind. *)
Definition stepped (g : GXVOX) (s : St) : St :=
  let i := _next (self s) in
  let s' := accessed g (i / (info_nx g * info_ny g))
              (i / info_nx g mod info_ny g) s in
  mkSt (set_next (_next (self s') + 1) (self s')) (world s').

Lemma getitem_int_run g s i :
  storage_ok g -> attached g (self s) ->
  0 <= i < info_nx g * info_ny g * info_nz g ->
  __getitem__ (ItemInt i) s =
  (Ok (linear_cell g i),
   accessed g (i / (info_nx g * info_ny g)) (i / info_nx g mod info_ny g) s).
Proof.
  intros Hg Ha Hi.
  pose proof (ok_nx Hg) as Hx. pose proof (ok_ny Hg) as Hy.
  pose proof (att_nx Ha) as Hnx. pose proof (att_ny Ha) as Hny.
  unfold linear_cell.
  rewrite <- (getitem_tuple_run s Hg Ha (linear_index_in_range Hg Hi)).
  unfold __getitem__.
  assert (Hn : _nx (hdr (self s)) * _ny (hdr (self s)) <> 0)
    by (rewrite Hnx, Hny; nia).
  erewrite bind_run by (apply item_index_int_run; exact Hn).
  symmetry. erewrite bind_run by reflexivity. symmetry.
  rewrite Hnx, Hny, (decode_spec_linear_cell i Hx Hy). reflexivity.
Qed.

Lemma next_run g s :
  storage_ok g -> attached g (self s) ->
  0 <= _next (self s) < info_nx g * info_ny g * info_nz g ->
  __next__ s = (Ok (linear_cell g (_next (self s))), stepped g s).
Proof.
  intros Hg Ha Hi. unfold __next__.
  erewrite bind_run by reflexivity.
  erewrite bind_run by reflexivity.
  rewrite (att_max Ha).
  replace (info_nx g * info_ny g * info_nz g <=? _next (self s)) with false
    by (symmetry; apply Z.leb_gt; lia).
  erewrite bind_run by (apply (getitem_int_run s Hg Ha Hi)).
  reflexivity.
Qed.

Lemma set_next_attached g v n : attached g v -> attached g (set_next n v).
Proof. intros [H1 H2 H3 H4 H5 H6 H7 H8 H9]. constructor; simpl; auto. Qed.

Lemma stepped_attached g s :
  storage_ok g -> attached g (self s) ->
  0 <= _next (self s) < info_nx g * info_ny g * info_nz g ->
  attached g (self (stepped g s)).
Proof.
  intros Hg Ha Hi. unfold stepped. simpl.
  destruct (linear_index_in_range Hg Hi) as (_ & Hy & Hz).
  apply set_next_attached. apply accessed_attached; assumption.
Qed.

Lemma stepped_next g s : _next (self (stepped g s)) = _next (self s) + 1.
Proof. unfold stepped. simpl. rewrite accessed_next. reflexivity. Qed.

(** ** The whole iteration *)

(** [k] consecutive integers from [a]. *)
Fixpoint zfrom (a : Z) (k : nat) : list Z :=
  match k with
  | O => []
  | S k' => a :: zfrom (a + 1) k'
  end.

Lemma zfrom_shift a k : zfrom (a + 1) k = map (fun i => i + 1) (zfrom a k).
Proof.
  revert a. induction k as [ | k IH]; intros a; simpl; [reflexivity | ].
  rewrite IH. reflexivity.
Qed.

Lemma zrange_zfrom n : zrange n = zfrom 0 (Z.to_nat n).
Proof.
  unfold zrange. generalize (Z.to_nat n) as k. intros k.
  assert (H : forall a b, map Z.of_nat (seq b a) = zfrom (Z.of_nat b) a).
  { induction a as [ | a IH]; intros b; simpl; [reflexivity | ].
    rewrite IH. f_equal. f_equal. lia. }
  apply (H k 0%nat).
Qed.

Lemma zfrom_length a k : List.length (zfrom a k) = k.
Proof. revert a. induction k as [ | k IH]; intros a; simpl; auto. Qed.

Lemma iterate_from g (Hg : storage_ok g) (extra : nat) :
  forall (k : nat) (s : St),
    attached g (self s) ->
    Z.of_nat k <= info_nx g * info_ny g * info_nz g ->
    _next (self s) = info_nx g * info_ny g * info_nz g - Z.of_nat k ->
    exists s',
      iterate (S k + extra) s =
      Some (Ok (map (linear_cell g) (zfrom (_next (self s)) k)), s') /\
      attached g (self s') /\ _next (self s') = 0.
Proof.
  induction k as [ | k IH]; intros s Ha Hk Hn.
  - exists (mkSt (set_next 0 (self s)) (world s)).
    simpl iterate. rewrite next_stop by (rewrite (att_max Ha); lia).
    simpl. split; [reflexivity | ]. split; [ | reflexivity].
    apply set_next_attached. exact Ha.
  - assert (Hi : 0 <= _next (self s) < info_nx g * info_ny g * info_nz g) by lia.
    destruct (IH (stepped g s)) as (s' & E & Ha' & Hz).
    + apply stepped_attached; assumption.
    + lia.
    + rewrite stepped_next. lia.
    + exists s'. split; [ | split; assumption].
      change (iterate (S (S k) + extra) s) with
        (match __next__ s with
         | (Raise StopIteration, s1) => Some (Ok [], s1)
         | (Raise e, s1) => Some (Raise e, s1)
         | (Ok c, s1) =>
             match iterate (S k + extra) s1 with
             | Some (Ok cs, s2) => Some (Ok (c :: cs), s2)
             | r => r
             end
         end).
      rewrite (next_run s Hg Ha Hi), E, stepped_next. reflexivity.
Qed.

(** ** Linear order and the nested loops *)

Lemma zfrom_app a k1 k2 :
  zfrom a (k1 + k2) = (zfrom a k1 ++ zfrom (a + Z.of_nat k1) k2)%list.
Proof.
  revert a. induction k1 as [ | k1 IH]; intros a.
  - simpl. f_equal. lia.
  - change (zfrom a (S k1 + k2)) with (a :: zfrom (a + 1) (k1 + k2)).
    rewrite IH. simpl. do 3 f_equal. lia.
Qed.

Lemma zfrom_offset a k : zfrom a k = map (fun i => a + i) (zfrom 0 k).
Proof.
  revert a. induction k as [ | k IH]; intros a; simpl; [reflexivity | ].
  f_equal; [lia | ].
  rewrite (IH (a + 1)), (IH 1), map_map.
  apply map_ext. intros i. lia.
Qed.

Lemma In_zfrom i a k : In i (zfrom a k) <-> a <= i < a + Z.of_nat k.
Proof.
  revert a. induction k as [ | k IH]; intros a; simpl.
  - split; [contradiction | lia].
  - rewrite IH. lia.
Qed.

Lemma flat_map_ext_In {A B : Type} (f h : A -> list B) (l : list A) :
  (forall a, In a l -> f a = h a) -> flat_map f l = flat_map h l.
Proof.
  induction l as [ | a l IH]; intros H; simpl; [reflexivity | ].
  rewrite (H a) by (left; reflexivity).
  rewrite IH by (intros b Hb; apply H; right; exact Hb).
  reflexivity.
Qed.

Lemma map_flat_map_list {A B C : Type} (f : B -> C) (h : A -> list B) (l : list A) :
  map f (flat_map h l) = flat_map (fun a => map f (h a)) l.
Proof.
  induction l as [ | a l IH]; simpl; [reflexivity | ].
  rewrite map_app, IH. reflexivity.
Qed.

Lemma flat_map_map_list {A B C : Type} (f : A -> B) (h : B -> list C) (l : list A) :
  flat_map h (map f l) = flat_map (fun a => h (f a)) l.
Proof.
  induction l as [ | a l IH]; simpl; [reflexivity | ].
  rewrite IH. reflexivity.
Qed.

(** [m] blocks of [n] consecutive integers. *)
Lemma zfrom_block (n m : nat) :
  zfrom 0 (m * n) =
  flat_map (fun j => map (fun i => j * Z.of_nat n + i) (zfrom 0 n)) (zfrom 0 m).
Proof.
  induction m as [ | m IH].
  - reflexivity.
  - change (S m * n)%nat with (n + m * n)%nat.
    rewrite zfrom_app. simpl zfrom. simpl flat_map.
    f_equal.
    + rewrite <- (map_id (zfrom 0 n)) at 1. apply map_ext. intros i. lia.
    + rewrite (zfrom_offset (0 + Z.of_nat n)), IH, map_flat_map_list.
      rewrite (zfrom_offset 1 m), flat_map_map_list.
      apply flat_map_ext. intros j. rewrite map_map.
      apply map_ext. intros i. lia.
Qed.

Lemma all_cells_linear g :
  storage_ok g ->
  map (linear_cell g) (zrange (info_nx g * info_ny g * info_nz g)) = all_cells g.
Proof.
  intros Hg.
  pose proof (ok_nx Hg) as Hx. pose proof (ok_ny Hg) as Hy.
  pose proof (ok_nz Hg) as Hz.
  unfold all_cells. rewrite !zrange_zfrom.
  replace (Z.to_nat (info_nx g * info_ny g * info_nz g))
    with (Z.to_nat (info_nz g) * (Z.to_nat (info_ny g) * Z.to_nat (info_nx g)))%nat
    by lia.
  rewrite zfrom_block, map_flat_map_list.
  apply flat_map_ext_In. intros iz Hiz. apply In_zfrom in Hiz.
  rewrite map_map, zfrom_block, map_flat_map_list.
  apply flat_map_ext_In. intros iy Hiy. apply In_zfrom in Hiy.
  rewrite map_map. apply map_ext_in. intros ix Hix. apply In_zfrom in Hix.
  assert (Bx : 0 <= ix < info_nx g) by lia.
  assert (By : 0 <= iy < info_ny g) by lia.
  pose proof (decode_spec_linear iz Bx By) as E1.
  rewrite (decode_spec_linear_cell _ Hx Hy) in E1.
  injection E1 as Ex Ey Ez.
  unfold linear_cell.
  replace (iz * Z.of_nat (Z.to_nat (info_ny g) * Z.to_nat (info_nx g)) +
           (iy * Z.of_nat (Z.to_nat (info_nx g)) + ix))
    with (iz * info_nx g * info_ny g + iy * info_nx g + ix) by nia.
  rewrite Ex, Ey, Ez. reflexivity.
Qed.

Lemma all_cells_length g :
  storage_ok g ->
  List.length (all_cells g) = Z.to_nat (info_nx g * info_ny g * info_nz g).
Proof.
  intros Hg. rewrite <- (all_cells_linear Hg), length_map.
  rewrite zrange_zfrom. apply zfrom_length.
Qed.

(** ** Accesses along one row *)

Lemma getitems_row g iy iz :
  storage_ok g -> 0 <= iy < info_ny g -> 0 <= iz < info_nz g ->
  forall (l : list Z) (s : St),
    Forall (fun ix => 0 <= ix < info_nx g) l ->
    attached g (self s) ->
    exists s',
      getitems (map (fun ix => ItemTuple ix iy iz) l) s =
      (Ok (map (fun ix => the_cell g ix iy iz) l), s') /\
      attached g (self s') /\
      row_reads (world s') =
      ((if match l with [] => true | _ => cached (self s) iz iy end
        then [] else [(iz, iy)]) ++ row_reads (world s))%list /\
      (l <> [] -> cached (self s') iz iy = true).
Proof.
  intros Hg Hy Hz. induction l as [ | ix l IH]; intros s Hl Ha.
  - exists s. simpl.
    split; [reflexivity | ]. split; [exact Ha | ]. split; [reflexivity | ].
    intros H. exfalso. apply H. reflexivity.
  - inversion Hl as [ | ? ? Hix Hl']; subst.
    assert (Hr : in_range g ix iy iz) by (repeat split; lia).
    destruct (IH (accessed g iz iy s) Hl' (accessed_attached s Hg Hy Hz Ha))
      as (s' & E & Ha' & Er & Ec).
    exists s'. simpl getitems.
    erewrite bind_run by (apply (getitem_tuple_run s Hg Ha Hr)).
    erewrite bind_run by (exact E).
    split; [reflexivity | ]. split; [exact Ha' | ]. split.
    + rewrite Er, accessed_reads, (accessed_cached s Hg Hy Hz).
      destruct l; reflexivity.
    + intros _. destruct l as [ | ix' l'].
      * simpl in E. injection E as <-. apply accessed_cached; assumption.
      * apply Ec. discriminate.
Qed.

Lemma zrange_in_range n : Forall (fun ix => 0 <= ix < n) (zrange n).
Proof.
  apply Forall_forall. intros i Hi.
  rewrite zrange_zfrom in Hi. apply In_zfrom in Hi. lia.
Qed.

Lemma zrange_nonempty n : 0 < n -> zrange n <> [].
Proof.
  intros Hn. unfold zrange.
  destruct (Z.to_nat n) eqn:E; [lia | discriminate].
Qed.

(** All [nx] cells of a row: one read when the row is not the cached one,
    none when it is; the row is the cached one afterwards. *)
Lemma row_sweep g iy iz s :
  storage_ok g -> 0 <= iy < info_ny g -> 0 <= iz < info_nz g ->
  attached g (self s) ->
  exists s',
    getitems (row_items g iy iz) s =
    (Ok (map (fun ix => the_cell g ix iy iz) (zrange (info_nx g))), s') /\
    attached g (self s') /\
    row_reads (world s') =
    ((if cached (self s) iz iy then [] else [(iz, iy)]) ++ row_reads (world s))%list /\
    cached (self s') iz iy = true.
Proof.
  intros Hg Hy Hz Ha.
  destruct (getitems_row Hg Hy Hz s (zrange_in_range (info_nx g)) Ha)
    as (s' & E & Ha' & Er & Ec).
  pose proof (zrange_nonempty (ok_nx Hg)) as Hne.
  exists s'. unfold row_items. split; [exact E | ]. split; [exact Ha' | ].
  split; [ | exact (Ec Hne)].
  rewrite Er. destruct (zrange (info_nx g)); [congruence | reflexivity].
Qed.

Lemma cached_other v iz iy iz' iy' :
  cached v iz iy = true -> (iz, iy) <> (iz', iy') -> cached v iz' iy' = false.
Proof.
  intros H Hne. apply cached_true in H. destruct H as (Ep & Eq).
  destruct (cached v iz' iy') eqn:E; [ | reflexivity].
  apply cached_true in E. destruct E as (Ep' & Eq').
  exfalso. apply Hne. congruence.
Qed.

(** ** Closing *)

(** The object once its resources are released. *)
Definition released (v : Voxset) : Voxset :=
  set_vv None (set_pg None (set_cs None (set_gxvox None (set_open None v)))).

(** The world once the resource is taken off the registry. *)
Definition popped (o : option Z) (w : World) : World :=
  match o with
  | Some r => set_registry (pop_resource r (registry w)) w
  | None => w
  end.

Lemma close_not_open pop s :
  truthy (_open (self s)) = false -> _close pop s = (Ok tt, s).
Proof. intros H. unfold _close. run. rewrite H. reflexivity. Qed.

Lemma close_unchanged s :
  truthy (_open (self s)) = true ->
  _metadata_changed (hdr (self s)) = false ->
  close s = (Ok tt, mkSt (released (self s)) (popped (_open (self s)) (world s))).
Proof.
  intros Ho Hc. unfold close, _close, released, popped. run.
  rewrite Ho, Hc. run.
  destruct (_open (self s)); [reflexivity | discriminate].
Qed.

Lemma close_changed s :
  truthy (_open (self s)) = true ->
  _metadata_changed (hdr (self s)) = true ->
  fs_writable (world s) (_name (hdr (self s)) ++ ".xml") = true ->
  close s =
  (Ok tt,
   mkSt (released (self s))
     (popped (_open (self s))
        (log_write (_name (hdr (self s)) ++ ".xml")
           (xml_from_dict (_metadata (hdr (self s)))) (world s)))).
Proof.
  intros Ho Hc Hw. unfold close, _close, released, popped, write_file. run.
  rewrite Ho, Hc. run. rewrite Hw. run.
  destruct (_open (self s)); [reflexivity | discriminate].
Qed.

Lemma close_write_fails s :
  truthy (_open (self s)) = true ->
  _metadata_changed (hdr (self s)) = true ->
  fs_writable (world s) (_name (hdr (self s)) ++ ".xml") = false ->
  close s = (Raise OSError, s).
Proof.
  intros Ho Hc Hw. unfold close, _close, write_file. run.
  rewrite Ho, Hc. run. rewrite Hw. run. destruct s; reflexivity.
Qed.

Lemma close_ok_state s s' :
  truthy (_open (self s)) = true ->
  close s = (Ok tt, s') ->
  self s' = released (self s) /\ row_reads (world s') = row_reads (world s).
Proof.
  intros Ho E.
  destruct (_metadata_changed (hdr (self s))) eqn:Hc.
  - destruct (fs_writable (world s) (_name (hdr (self s)) ++ ".xml")) eqn:Hw.
    + rewrite (close_changed s Ho Hc Hw) in E. injection E as <-.
      simpl. split; [reflexivity | ].
      destruct (_open (self s)); reflexivity.
    + rewrite (close_write_fails s Ho Hc Hw) in E. discriminate.
  - rewrite (close_unchanged s Ho Hc) in E. injection E as <-.
    simpl. split; [reflexivity | ].
    destruct (_open (self s)); reflexivity.
Qed.

(** ** After closing *)

Lemma released_extent v w :
  extent (mkSt (released v) w) = (Raise AttributeError, mkSt (released v) w).
Proof. reflexivity. Qed.

Lemma released_coordinate_system v w :
  fst (coordinate_system (mkSt (released v) w)) = Raise AttributeError.
Proof. reflexivity. Qed.

Lemma released_xyz_unloaded v w ix iy iz :
  _xloc v = None ->
  fst (xyz ix iy iz (mkSt (released v) w)) = Raise AttributeError.
Proof.
  intros H. unfold xyz, x_locations, _location_arrays. run. rewrite H. reflexivity.
Qed.

Lemma released_xyz_loaded g v w ix iy iz :
  attached g v -> _xloc v <> None ->
  xyz ix iy iz (mkSt (released v) w) = (xyz_pure g ix iy iz, mkSt (released v) w).
Proof.
  intros Ha Hl.
  destruct (att_locs Ha) as [(E & _) | (Ex & Ey & Ez)]; [contradiction | ].
  destruct v as [h ro gv cs nxt xl yl zl pg vv bp br buf op].
  simpl in Ex, Ey, Ez. subst xl yl zl.
  unfold xyz, xyz_pure, x_locations, y_locations, z_locations, released. run.
  destruct (np_getitem (xs_of g) ix); run; [ | reflexivity].
  destruct (np_getitem (ys_of g) iy); run; [ | reflexivity].
  destruct (np_getitem (zs_of g) iz); reflexivity.
Qed.

Lemma released_getitem_unloaded v w ix iy iz :
  _xloc v = None ->
  fst (__getitem__ (ItemTuple ix iy iz) (mkSt (released v) w)) = Raise AttributeError.
Proof.
  intros H. unfold __getitem__.
  erewrite bind_run by reflexivity. cbv beta iota.
  pose proof (released_xyz_unloaded v w ix iy iz H) as E.
  destruct (xyz ix iy iz (mkSt (released v) w)) as [r s1] eqn:Ex.
  simpl in E. subst r.
  erewrite bind_raise by (exact Ex). reflexivity.
Qed.

Lemma released_getitem_miss g v w ix iy iz :
  storage_ok g -> attached g v -> in_range g ix iy iz ->
  _xloc v <> None -> cached v iz iy = false ->
  fst (__getitem__ (ItemTuple ix iy iz) (mkSt (released v) w)) = Raise AttributeError.
Proof.
  intros Hg Ha Hr Hl Hc. unfold __getitem__.
  erewrite bind_run by reflexivity. cbv beta iota.
  erewrite bind_run
    by (rewrite (released_xyz_loaded w ix iy iz Ha Hl), (xyz_pure_in_range Hg Hr);
        reflexivity).
  cbv beta iota.
  unfold cached in Hc. apply negb_false_iff in Hc.
  unfold _vv, _pg. run. rewrite Hc. reflexivity.
Qed.

Lemma released_getitem_hit g v w ix iy iz :
  storage_ok g -> attached g v -> in_range g ix iy iz ->
  _xloc v <> None -> cached v iz iy = true ->
  __getitem__ (ItemTuple ix iy iz) (mkSt (released v) w) =
  (Ok (the_cell g ix iy iz), mkSt (released v) w).
Proof.
  intros Hg Ha Hr Hl Hc. unfold __getitem__.
  erewrite bind_run by reflexivity. cbv beta iota.
  erewrite bind_run
    by (rewrite (released_xyz_loaded w ix iy iz Ha Hl), (xyz_pure_in_range Hg Hr);
        reflexivity).
  cbv beta iota.
  destruct Hr as (Hx & Hy & Hz).
  destruct (ok_rows Hg Hz Hy) as (r & Er & Lr & Tr).
  apply cached_true in Hc. destruct Hc as (Ep & Eq).
  destruct (att_cache Ha Ep Eq) as (r' & Er' & Eb).
  assert (r' = r) by congruence. subst r'.
  pose proof (att_is_int Ha) as Hint.
  unfold the_cell, stored, value_of. rewrite Er.
  run. rewrite Ep, Eq. unfold py_ne_int. rewrite !Z.eqb_refl. run.
  unfold buffer_item. run. rewrite Eb. run.
  rewrite (buffer_of_item _ _ Lr Hx). rewrite Hint.
  destruct (is_int (info_type g)) eqn:Ei.
  - assert (Hn : exists n, nth (Z.to_nat ix) r (SInt 0) = SInt n)
      by (apply py_int_typed; [auto | lia]).
    destruct Hn as (n & ->). reflexivity.
  - destruct (np_isnan _); reflexivity.
Qed.

(** ** Indexing by triple and by linear index *)

(** C3.  For a voxset in step with its storage and a triple in range, the
    access by linear index [iz*nx*ny + iy*nx + ix] and the access by the
    triple give the same result and leave the same state; either one, made
    after the other, returns the same cell again; the decoding of the linear
    index written in the code is the specified one and inverts the
    encoding. *)
Theorem roundtrip_indexing g s ix iy iz :
  storage_ok g -> attached g (self s) -> in_range g ix iy iz ->
  let i := linear g ix iy iz in
  __getitem__ (ItemInt i) s = __getitem__ (ItemTuple ix iy iz) s /\
  fst (__getitem__ (ItemTuple ix iy iz) s) = Ok (the_cell g ix iy iz) /\
  fst (__getitem__ (ItemInt i) (snd (__getitem__ (ItemTuple ix iy iz) s))) =
    Ok (the_cell g ix iy iz) /\
  fst (__getitem__ (ItemTuple ix iy iz) (snd (__getitem__ (ItemInt i) s))) =
    Ok (the_cell g ix iy iz) /\
  fst (item_index (ItemInt i) s) = Ok (decode_spec (info_nx g) (info_ny g) i) /\
  decode_spec (info_nx g) (info_ny g) i = (ix, iy, iz).
Proof.
  intros Hg Ha Hr i.
  pose proof Hr as (Hx & Hy & Hz).
  assert (Hsame : forall t, attached g (self t) ->
            __getitem__ (ItemInt i) t = __getitem__ (ItemTuple ix iy iz) t).
  { intros t Ht. apply getitem_linear_same; assumption. }
  assert (Hacc : attached g (self (accessed g iz iy s)))
    by (apply accessed_attached; assumption).
  split; [apply Hsame; exact Ha | ].
  split; [rewrite (getitem_tuple_run s Hg Ha Hr); reflexivity | ].
  split.
  { rewrite (getitem_tuple_run s Hg Ha Hr). simpl snd.
    rewrite (Hsame _ Hacc), (getitem_tuple_run _ Hg Hacc Hr). reflexivity. }
  split.
  { rewrite (Hsame _ Ha), (getitem_tuple_run s Hg Ha Hr). simpl snd.
    rewrite (getitem_tuple_run _ Hg Hacc Hr). reflexivity. }
  split.
  { rewrite item_index_int_run.
    - rewrite (att_nx Ha), (att_ny Ha). reflexivity.
    - rewrite (att_nx Ha), (att_ny Ha).
      pose proof (ok_nx Hg). pose proof (ok_ny Hg). nia. }
  apply decode_spec_linear; assumption.
Qed.

(** ** Iteration *)

(** C4.  Iterating a voxset in step with its storage, with the cursor at 0,
    yields the [nx*ny*nz] cells in linear order (X fastest, then Y, then Z)
    and leaves the cursor at 0; a second iteration of the same object yields
    the same cells in the same order. *)
Theorem iteration_complete_restartable g s fuel :
  storage_ok g -> attached g (self s) -> _next (self s) = 0 ->
  (Z.to_nat (info_nx g * info_ny g * info_nz g) < fuel)%nat ->
  exists s1 s2,
    iterate fuel s = Some (Ok (all_cells g), s1) /\
    List.length (all_cells g) = Z.to_nat (info_nx g * info_ny g * info_nz g) /\
    all_cells g =
      map (linear_cell g) (zrange (info_nx g * info_ny g * info_nz g)) /\
    _next (self s1) = 0 /\
    iterate fuel s1 = Some (Ok (all_cells g), s2) /\
    _next (self s2) = 0.
Proof.
  intros Hg Ha Hn Hf.
  pose proof (ok_nx Hg) as Hx. pose proof (ok_ny Hg) as Hy.
  pose proof (ok_nz Hg) as Hz.
  set (N := info_nx g * info_ny g * info_nz g) in *.
  assert (HN : 0 <= N) by (subst N; nia).
  set (k := Z.to_nat N) in *.
  assert (Hfuel : fuel = (S k + (fuel - S k))%nat) by lia.
  assert (Hrun : forall t, attached g (self t) -> _next (self t) = 0 ->
            exists t', iterate fuel t = Some (Ok (all_cells g), t') /\
                       attached g (self t') /\ _next (self t') = 0).
  { intros t Ht Ht0.
    destruct (@iterate_from g Hg (fuel - S k)%nat k t Ht) as (t' & E & Ht' & Hz').
    - subst k. fold N. lia.
    - rewrite Ht0. subst k. fold N. lia.
    - exists t'. split; [ | split; assumption].
      rewrite Hfuel, E, Ht0. subst k.
      rewrite <- zrange_zfrom. fold N.
      unfold N. rewrite (all_cells_linear Hg). reflexivity. }
  destruct (Hrun s Ha Hn) as (s1 & E1 & Ha1 & Hn1).
  destruct (Hrun s1 Ha1 Hn1) as (s2 & E2 & Ha2 & Hn2).
  exists s1, s2.
  split; [exact E1 | ].
  split; [apply all_cells_length; exact Hg | ].
  split; [symmetry; apply all_cells_linear; exact Hg | ].
  split; [exact Hn1 | ]. split; [exact E2 | exact Hn2].
Qed.

(** ** Missing values *)

Lemma nan_after_conversion f :
  np_isnan (dummy_to_nan1 (SFloat f)) = true <->
  PrimFloat.eqb f rDUMMY = true \/ PrimFloat.is_nan f = true.
Proof.
  unfold dummy_to_nan1.
  destruct (PrimFloat.eqb f rDUMMY) eqn:E; simpl.
  - split; [intros _; left; reflexivity | intros _; reflexivity].
  - split; [intros H; right; exact H | intros [H | H]; [discriminate | exact H]].
Qed.

Lemma kept_by_conversion raw :
  np_isnan (dummy_to_nan1 raw) = false -> dummy_to_nan1 raw = raw.
Proof.
  destruct raw as [n | f]; simpl; [reflexivity | ].
  destruct (PrimFloat.eqb f rDUMMY); [ | reflexivity].
  simpl. intros H. discriminate H.
Qed.

(** What a cell access makes of the stored value, as the code has it: for
    every integer type, None exactly when the stored integer is gxapi.iDUMMY;
    for a floating type, None exactly when the value is NaN after the
    conversion of dummies to NaN (the stored value is the float dummy, or is
    NaN itself).  Every other cell returns the stored value unchanged, as a
    native integer for an integer type. *)
Theorem missing_value_translation g s ix iy iz :
  storage_ok g -> attached g (self s) -> in_range g ix iy iz ->
  exists x y z v,
    fst (__getitem__ (ItemTuple ix iy iz) s) = Ok (x, y, z, v) /\
    fst (__getitem__ (ItemInt (linear g ix iy iz)) s) = Ok (x, y, z, v) /\
    (is_int (info_type g) = true ->
       exists n, stored g ix iy iz = SInt n /\
                 (v = None <-> n = iDUMMY) /\
                 (n <> iDUMMY -> v = Some (SInt n))) /\
    (is_int (info_type g) = false ->
       let c := dummy_to_nan1 (stored g ix iy iz) in
       (v = None <-> np_isnan c = true) /\
       (np_isnan c = false -> v = Some (stored g ix iy iz)) /\
       (forall f, stored g ix iy iz = SFloat f ->
          (np_isnan c = true <->
           PrimFloat.eqb f rDUMMY = true \/ PrimFloat.is_nan f = true))).
Proof.
  intros Hg Ha Hr. pose proof Hr as (Hx & Hy & Hz).
  exists (nth (Z.to_nat ix) (xs_of g) 0%float),
         (nth (Z.to_nat iy) (ys_of g) 0%float),
         (nth (Z.to_nat iz) (zs_of g) 0%float),
         (value_of (is_int (info_type g)) (stored g ix iy iz)).
  split; [rewrite (getitem_tuple_run s Hg Ha Hr); reflexivity | ].
  split.
  { rewrite (getitem_linear_same s iz Ha Hx Hy), (getitem_tuple_run s Hg Ha Hr).
    reflexivity. }
  split.
  - intros Hi. rewrite Hi.
    destruct (ok_rows Hg Hz Hy) as (r & Er & Lr & Tr).
    assert (Hn : exists n, nth (Z.to_nat ix) r (SInt 0) = SInt n)
      by (apply py_int_typed; [auto | lia]).
    destruct Hn as (n & En). exists n.
    unfold stored. rewrite Er, En. unfold value_of. simpl.
    destruct (Z.eqb_spec n iDUMMY) as [E | E].
    + split; [reflexivity | ]. split; [tauto | contradiction].
    + split; [reflexivity | ]. split; [ | reflexivity].
      split; [discriminate | contradiction].
  - intros Hi c. rewrite Hi. unfold value_of. fold c.
    split; [ | split].
    + destruct (np_isnan c); split; congruence.
    + intros Hc. rewrite Hc. f_equal. apply kept_by_conversion. exact Hc.
    + intros f Ef. subst c. rewrite Ef. apply nan_after_conversion.
Qed.

(** ** The row cache *)

(** C6.  The row cache is one slot keyed by (plane, row).  An access in range
    reads a row from storage exactly when (iz, iy) is not the cached pair, and
    afterwards the cached pair is (iz, iy), by triple and by linear index
    alike.  So the [nx] cells of a row cost one read (none if the row is the
    cached one), another row costs one more, and coming back to the first row
    costs one more again. *)
Theorem row_cache_single_slot g s :
  storage_ok g -> attached g (self s) ->
  (forall ix iy iz, in_range g ix iy iz ->
     let s' := snd (__getitem__ (ItemTuple ix iy iz) s) in
     row_reads (world s') =
       ((if cached (self s) iz iy then [] else [(iz, iy)]) ++
        row_reads (world s))%list /\
     _buffered_plane (self s') = Some iz /\
     _buffered_row (self s') = Some iy /\
     snd (__getitem__ (ItemInt (linear g ix iy iz)) s) = s') /\
  (forall iy iz iy' iz',
     0 <= iy < info_ny g -> 0 <= iz < info_nz g ->
     0 <= iy' < info_ny g -> 0 <= iz' < info_nz g ->
     (iz, iy) <> (iz', iy') ->
     let s1 := snd (getitems (row_items g iy iz) s) in
     let s2 := snd (getitems (row_items g iy' iz') s1) in
     let s3 := snd (getitems (row_items g iy iz) s2) in
     row_reads (world s1) =
       ((if cached (self s) iz iy then [] else [(iz, iy)]) ++
        row_reads (world s))%list /\
     row_reads (world s2) = (iz', iy') :: row_reads (world s1) /\
     row_reads (world s3) = (iz, iy) :: row_reads (world s2)).
Proof.
  intros Hg Ha. split.
  - intros ix iy iz Hr s'. pose proof Hr as (Hx & Hy & Hz).
    assert (Es : s' = accessed g iz iy s)
      by (subst s'; rewrite (getitem_tuple_run s Hg Ha Hr); reflexivity).
    split; [rewrite Es; apply accessed_reads | ].
    pose proof (accessed_cached s Hg Hy Hz) as Hc.
    rewrite <- Es in Hc. apply cached_true in Hc. destruct Hc as (Ep & Eq).
    split; [exact Ep | ]. split; [exact Eq | ].
    subst s'. rewrite (getitem_linear_same s iz Ha Hx Hy). reflexivity.
  - intros iy iz iy' iz' Hy Hz Hy' Hz' Hne. cbv zeta.
    destruct (row_sweep s Hg Hy Hz Ha) as (t1 & E1 & A1 & R1 & C1).
    destruct (row_sweep t1 Hg Hy' Hz' A1) as (t2 & E2 & A2 & R2 & C2).
    destruct (row_sweep t2 Hg Hy Hz A2) as (t3 & E3 & A3 & R3 & C3).
    rewrite E1. simpl snd. rewrite E2. simpl snd. rewrite E3. simpl snd.
    split; [exact R1 | ]. split.
    + rewrite R2, (@cached_other _ _ _ _ _ C1 Hne). reflexivity.
    + rewrite R3.
      assert (Hne' : (iz', iy') <> (iz, iy)) by congruence.
      rewrite (@cached_other _ _ _ _ _ C2 Hne'). reflexivity.
Qed.

(** ** Bounds of the coordinate lookup *)

(** The index numpy accepts on an axis of [n] points, and where it lands. *)
Definition index_ok (i n : Z) : bool := (- n <=? i) && (i <? n).

Definition wrap (i n : Z) : Z := if i <? 0 then i + n else i.

Lemma np_getitem_spec {A : Type} (d : A) (l : list A) (i : Z) :
  np_getitem l i =
  if index_ok i (Z.of_nat (List.length l))
  then Ok (nth (Z.to_nat (wrap i (Z.of_nat (List.length l)))) l d)
  else Raise IndexError.
Proof.
  unfold index_ok, wrap.
  destruct (Z.leb_spec (- Z.of_nat (List.length l)) i) as [H1 | H1];
    destruct (Z.ltb_spec i (Z.of_nat (List.length l))) as [H2 | H2]; simpl.
  - destruct (Z.ltb_spec i 0) as [H3 | H3].
    + apply np_getitem_wrap. lia.
    + apply np_getitem_ok. lia.
  - apply np_getitem_out. lia.
  - apply np_getitem_out. lia.
  - apply np_getitem_out. lia.
Qed.

(** C7, as the code has it.  On a voxset in step with its storage the
    coordinate lookup fails exactly when some index is outside
    [-dim, dim); the failure is the IndexError of the location array;
    an index in [-dim, 0) is taken from the end of the axis.  In particular
    xyz(nx, 0, 0), xyz(0, ny, 0) and xyz(0, 0, nz) raise IndexError. *)
Theorem xyz_bounds g s ix iy iz :
  storage_ok g -> attached g (self s) ->
  fst (xyz ix iy iz s) =
    (if index_ok ix (info_nx g) && index_ok iy (info_ny g) &&
        index_ok iz (info_nz g)
     then Ok (nth (Z.to_nat (wrap ix (info_nx g))) (xs_of g) 0%float,
              nth (Z.to_nat (wrap iy (info_ny g))) (ys_of g) 0%float,
              nth (Z.to_nat (wrap iz (info_nz g))) (zs_of g) 0%float)
     else Raise IndexError) /\
  fst (xyz (info_nx g) 0 0 s) = Raise IndexError /\
  fst (xyz 0 (info_ny g) 0 s) = Raise IndexError /\
  fst (xyz 0 0 (info_nz g) s) = Raise IndexError.
Proof.
  intros Hg Ha.
  assert (H : forall jx jy jz,
            fst (xyz jx jy jz s) =
            (if index_ok jx (info_nx g) && index_ok jy (info_ny g) &&
                index_ok jz (info_nz g)
             then Ok (nth (Z.to_nat (wrap jx (info_nx g))) (xs_of g) 0%float,
                      nth (Z.to_nat (wrap jy (info_ny g))) (ys_of g) 0%float,
                      nth (Z.to_nat (wrap jz (info_nz g))) (zs_of g) 0%float)
             else Raise IndexError)).
  { intros jx jy jz. destruct s as [v w]. simpl in Ha.
    rewrite (xyz_run w jx jy jz Ha). simpl fst. unfold xyz_pure.
    rewrite (np_getitem_spec 0%float (xs_of g)), (np_getitem_spec 0%float (ys_of g)),
      (np_getitem_spec 0%float (zs_of g)).
    rewrite (ok_xs Hg), (ok_ys Hg), (ok_zs Hg).
    destruct (index_ok jx (info_nx g)); simpl; [ | reflexivity].
    destruct (index_ok jy (info_ny g)); simpl; [ | reflexivity].
    destruct (index_ok jz (info_nz g)); reflexivity. }
  pose proof (ok_nx Hg) as Hx. pose proof (ok_ny Hg) as Hy.
  pose proof (ok_nz Hg) as Hz.
  split; [apply H | ].
  assert (Hout : forall n, index_ok n n = false).
  { intros n. unfold index_ok. rewrite Z.ltb_irrefl. apply andb_false_r. }
  repeat split; rewrite H, Hout; simpl; rewrite ?andb_false_r; reflexivity.
Qed.

(** ** The cursor *)

(** C10.  A cell access, by triple or by linear index, and any sequence of
    them, leaves the iteration cursor where it was, whether it returns or
    raises.  A [__next__] step sets the cursor to 0 at exhaustion; otherwise
    it advances it by one when the access returns and leaves it when the
    access raises. *)
Theorem cursor_moved_by_next_only item items s :
  _next (self (snd (__getitem__ item s))) = _next (self s) /\
  _next (self (snd (getitems items s))) = _next (self s) /\
  _next (self (snd (__next__ s))) =
    (if _max_iter (hdr (self s)) <=? _next (self s) then 0
     else match fst (__next__ s) with
          | Ok _ => _next (self s) + 1
          | Raise _ => _next (self s)
          end).
Proof.
  split; [apply (getitem_keeps_cursor item s) | ].
  split; [apply (getitems_keeps_cursor items s) | ].
  unfold __next__. run.
  destruct (_max_iter (hdr (self s)) <=? _next (self s)); [reflexivity | ].
  pose proof (getitem_keeps_cursor (ItemInt (_next (self s))) s) as K.
  unfold cursor in K.
  destruct (__getitem__ (ItemInt (_next (self s))) s) as [[c | e] s1];
    simpl in *; rewrite K; reflexivity.
Qed.

(** ** After close *)


(** A second close does nothing. *)
Lemma close_twice s s1 :
  close s = (Ok tt, s1) -> close s1 = (Ok tt, s1).
Proof.
  intros E. destruct (truthy (_open (self s))) eqn:Ho.
  - destruct (close_ok_state s Ho E) as (Es & _).
    apply close_not_open. rewrite Es. reflexivity.
  - unfold close in *. rewrite (close_not_open true s Ho) in E.
    injection E as <-. apply close_not_open. exact Ho.
Qed.

(** ** A new object *)

Lemma init_attached name g w : attached g (self (__init__ name g w)).
Proof.
  unfold __init__.
  destruct (simple_location g) as [[[[[a b] c] d] e] f].
  destruct (track_resource "Voxset" _ (registry w)) as [res reg].
  constructor; simpl; auto.
  intros iz iy H. discriminate H.
Qed.

Lemma init_cursor name g w : _next (self (__init__ name g w)) = 0.
Proof.
  unfold __init__.
  destruct (simple_location g) as [[[[[a b] c] d] e] f].
  destruct (track_resource "Voxset" _ (registry w)) as [res reg].
  reflexivity.
Qed.

Lemma init_nothing_cached name g w iz iy :
  cached (self (__init__ name g w)) iz iy = false.
Proof.
  unfold __init__.
  destruct (simple_location g) as [[[[[a b] c] d] e] f].
  destruct (track_resource "Voxset" _ (registry w)) as [res reg].
  reflexivity.
Qed.

(** ** The uniform-spacing properties *)

Lemma uniform_dx_run s : uniform_dx s = (Ok true, s).
Proof.
  unfold uniform_dx, dx, py_ne. run.
  destruct (PrimFloat.eqb (_dx (hdr (self s))) rDUMMY) eqn:E; run.
  - reflexivity.
  - rewrite E. reflexivity.
Qed.

Lemma uniform_dz_run s : uniform_dz s = (Ok true, s).
Proof.
  unfold uniform_dz, dz, py_ne. run.
  destruct (PrimFloat.eqb (_dz (hdr (self s))) rDUMMY) eqn:E; run.
  - reflexivity.
  - rewrite E. reflexivity.
Qed.

Lemma uniform_dy_run s :
  uniform_dy s =
  (Ok (PrimFloat.eqb (_dy (hdr (self s))) rDUMMY ||
       negb (PrimFloat.eqb (_dx (hdr (self s))) rDUMMY)), s).
Proof.
  unfold uniform_dy, dy, py_ne. run.
  destruct (PrimFloat.eqb (_dy (hdr (self s))) rDUMMY); reflexivity.
Qed.

(** * Further properties of the class *)

(** ** Closing *)

(** A close that returned is final: closing again returns, writes nothing
    and changes nothing. *)
Theorem close_is_idempotent s s1 :
  close s = (Ok tt, s1) -> close s1 = (Ok tt, s1).
Proof. apply close_twice. Qed.

(** The first close of an open voxset whose sidecar can be written (or whose
    metadata is unchanged) returns; it writes one file, holding the metadata
    as XML, when the metadata changed and none otherwise; it takes the
    resource off the registry and sets [_open], the storage handle, the
    coordinate system, the pager and the vector to None.  The header, the
    cursor, the location arrays and the row buffer with its (plane, row) key
    stay as they were. *)
Theorem close_releases s r :
  _open (self s) = Some r -> r <> 0 ->
  _metadata_changed (hdr (self s)) = false \/
  fs_writable (world s) (_name (hdr (self s)) ++ ".xml") = true ->
  let s' := snd (close s) in
  fst (close s) = Ok tt /\
  map snd (fs_writes (world s')) =
    (if _metadata_changed (hdr (self s))
     then xml_from_dict (_metadata (hdr (self s))) :: map snd (fs_writes (world s))
     else map snd (fs_writes (world s))) /\
  registry (world s') = pop_resource r (registry (world s)) /\
  (_open (self s') = None /\ _gxvox (self s') = None /\ _cs (self s') = None /\
   _pg_ (self s') = None /\ _vv_ (self s') = None) /\
  (hdr (self s') = hdr (self s) /\ _next (self s') = _next (self s) /\
   _xloc (self s') = _xloc (self s) /\ _yloc (self s') = _yloc (self s) /\
   _zloc (self s') = _zloc (self s) /\
   _buffered_plane (self s') = _buffered_plane (self s) /\
   _buffered_row (self s') = _buffered_row (self s) /\
   _buffer_np (self s') = _buffer_np (self s)).
Proof.
  intros Eo Hr Hw.
  assert (Ho : truthy (_open (self s)) = true).
  { rewrite Eo. simpl. apply negb_true_iff. apply Z.eqb_neq. exact Hr. }
  destruct (_metadata_changed (hdr (self s))) eqn:Hc.
  - destruct Hw as [Hw | Hw]; [discriminate | ].
    rewrite (close_changed s Ho Hc Hw). rewrite Eo. simpl.
    repeat split; reflexivity.
  - rewrite (close_unchanged s Ho Hc). rewrite Eo. simpl.
    repeat split; reflexivity.
Qed.

(** When the metadata changed and the sidecar cannot be written, close
    raises OSError before anything is released: the voxset is still open and
    nothing else changed. *)
Theorem close_fails_before_release s :
  truthy (_open (self s)) = true ->
  _metadata_changed (hdr (self s)) = true ->
  fs_writable (world s) (_name (hdr (self s)) ++ ".xml") = false ->
  close s = (Raise OSError, s).
Proof. apply close_write_fails. Qed.

(** ** Iteration from the middle *)

(** The cursor outlives a loop that was left early: iterating a voxset whose
    cursor is at [k] yields the cells from linear index [k] on, not all
    cells, and then resets the cursor. *)
Theorem iterate_resumes g s fuel :
  storage_ok g -> attached g (self s) ->
  0 <= _next (self s) <= info_nx g * info_ny g * info_nz g ->
  (Z.to_nat (info_nx g * info_ny g * info_nz g - _next (self s)) < fuel)%nat ->
  exists s',
    iterate fuel s =
    Some (Ok (map (linear_cell g)
                (zfrom (_next (self s))
                   (Z.to_nat (info_nx g * info_ny g * info_nz g - _next (self s))))),
          s') /\
    _next (self s') = 0.
Proof.
  intros Hg Ha Hn Hf.
  set (k := Z.to_nat (info_nx g * info_ny g * info_nz g - _next (self s))) in *.
  destruct (@iterate_from g Hg (fuel - S k)%nat k s Ha) as (s' & E & _ & Hz).
  - subst k. lia.
  - subst k. lia.
  - exists s'. split; [ | exact Hz].
    replace fuel with (S k + (fuel - S k))%nat by lia. exact E.
Qed.

(** ** Opening *)

Lemma set_readonly_attached g v b : attached g v -> attached g (set_readonly b v).
Proof. intros [H1 H2 H3 H4 H5 H6 H7 H8 H9]. constructor; simpl; auto. Qed.

(** Opening a name whose normalized file holds a voxel gives a voxset on that
    voxel, read-only exactly when the mode is MODE_READ or left out, whose
    first iteration yields every cell of the voxel; opening any other name
    raises the error of GXVOX.create. *)
Theorem open_then_iterate name mode w g fuel :
  voxel_files w (_voxset_file_name name) = Some g ->
  storage_ok g ->
  (Z.to_nat (info_nx g * info_ny g * info_nz g) < fuel)%nat ->
  exists s s1,
    open name mode w = Ok s /\
    _gxvox (self s) = Some g /\
    _readonly (self s) =
      Some (match mode with None => true | Some m => m =? MODE_READ end) /\
    iterate fuel s = Some (Ok (all_cells g), s1).
Proof.
  intros Ef Hg Hf. unfold open. rewrite Ef.
  set (s := mkSt (set_readonly _ (self (__init__ name g w)))
              (world (__init__ name g w))).
  assert (Ha : attached g (self s))
    by (apply set_readonly_attached, init_attached).
  assert (Hn : _next (self s) = 0) by (simpl; apply init_cursor).
  pose proof (ok_nx Hg). pose proof (ok_ny Hg). pose proof (ok_nz Hg).
  set (k := Z.to_nat (info_nx g * info_ny g * info_nz g)) in *.
  destruct (@iterate_from g Hg (fuel - S k)%nat k s Ha) as (s1 & E & _ & _).
  - subst k. lia.
  - subst k. rewrite Hn. nia.
  - exists s, s1. split; [reflexivity | ].
    split; [exact (att_gxvox Ha) | ].
    split; [destruct mode; reflexivity | ].
    replace fuel with (S k + (fuel - S k))%nat by lia.
    rewrite E, Hn. subst k. rewrite <- zrange_zfrom, (all_cells_linear Hg).
    reflexivity.
Qed.

Theorem open_missing name mode w :
  voxel_files w (_voxset_file_name name) = None ->
  open name mode w = Raise GXAPIError.
Proof. intros E. unfold open. rewrite E. reflexivity. Qed.

(** ** Accesses out of range *)

Lemma xyz_pure_out g ix iy iz :
  storage_ok g ->
  index_ok ix (info_nx g) && index_ok iy (info_ny g) && index_ok iz (info_nz g)
    = false ->
  xyz_pure g ix iy iz = Raise IndexError.
Proof.
  intros Hg H. unfold xyz_pure.
  rewrite (np_getitem_spec 0%float (xs_of g)), (np_getitem_spec 0%float (ys_of g)),
    (np_getitem_spec 0%float (zs_of g)).
  rewrite (ok_xs Hg), (ok_ys Hg), (ok_zs Hg).
  destruct (index_ok ix (info_nx g)); [ | reflexivity].
  destruct (index_ok iy (info_ny g)); [ | reflexivity].
  destruct (index_ok iz (info_nz g)); [discriminate | reflexivity].
Qed.

Lemma getitem_tuple_out g s ix iy iz :
  storage_ok g -> attached g (self s) ->
  index_ok ix (info_nx g) && index_ok iy (info_ny g) && index_ok iz (info_nz g)
    = false ->
  __getitem__ (ItemTuple ix iy iz) s =
  (Raise IndexError, mkSt (load g (self s)) (world s)).
Proof.
  intros Hg Ha H. destruct s as [v w]. simpl in Ha. unfold __getitem__.
  erewrite bind_run by reflexivity. cbv beta iota.
  erewrite bind_raise
    by (rewrite (xyz_run w ix iy iz Ha), (xyz_pure_out _ _ _ Hg H); reflexivity).
  reflexivity.
Qed.

(** An access with an index at or past the end of an axis, or a linear index
    at or past [nx*ny*nz], raises IndexError before the row cache is looked
    at: no row is read, and the cached (plane, row), the buffer and the
    cursor are as before. *)
Theorem out_of_range_access_is_harmless g s item :
  storage_ok g -> attached g (self s) ->
  match item with
  | ItemTuple ix iy iz =>
      info_nx g <= ix \/ info_ny g <= iy \/ info_nz g <= iz
  | ItemInt i => info_nx g * info_ny g * info_nz g <= i
  end ->
  let s' := snd (__getitem__ item s) in
  fst (__getitem__ item s) = Raise IndexError /\
  row_reads (world s') = row_reads (world s) /\
  _buffered_plane (self s') = _buffered_plane (self s) /\
  _buffered_row (self s') = _buffered_row (self s) /\
  _buffer_np (self s') = _buffer_np (self s) /\
  _next (self s') = _next (self s).
Proof.
  intros Hg Ha H.
  pose proof (ok_nx Hg) as Hx. pose proof (ok_ny Hg) as Hy.
  pose proof (ok_nz Hg) as Hz.
  assert (E : exists ix iy iz,
             __getitem__ item s = __getitem__ (ItemTuple ix iy iz) s /\
             index_ok ix (info_nx g) && index_ok iy (info_ny g) &&
             index_ok iz (info_nz g) = false).
  { destruct item as [i | ix iy iz].
    - exists (i mod info_nx g), (i / info_nx g mod info_ny g),
             (i / (info_nx g * info_ny g)).
      split.
      + unfold __getitem__.
        assert (Hn : _nx (hdr (self s)) * _ny (hdr (self s)) <> 0)
          by (rewrite (att_nx Ha), (att_ny Ha); nia).
        erewrite bind_run by (apply item_index_int_run; exact Hn).
        symmetry. erewrite bind_run by reflexivity. symmetry.
        rewrite (att_nx Ha), (att_ny Ha), (decode_spec_linear_cell i Hx Hy).
        reflexivity.
      + assert (info_nz g <= i / (info_nx g * info_ny g))
          by (apply Z.div_le_lower_bound; nia).
        unfold index_ok at 3.
        replace (i / (info_nx g * info_ny g) <? info_nz g) with false
          by (symmetry; apply Z.ltb_ge; lia).
        rewrite !andb_false_r. reflexivity.
    - exists ix, iy, iz. split; [reflexivity | ].
      unfold index_ok.
      destruct H as [H | [H | H]].
      + replace (ix <? info_nx g) with false by (symmetry; apply Z.ltb_ge; lia).
        rewrite andb_false_r. reflexivity.
      + replace (iy <? info_ny g) with false by (symmetry; apply Z.ltb_ge; lia).
        rewrite !andb_false_r. reflexivity.
      + replace (iz <? info_nz g) with false by (symmetry; apply Z.ltb_ge; lia).
        rewrite !andb_false_r. reflexivity. }
  destruct E as (ix & iy & iz & E & Hout).
  cbv zeta. rewrite E, (getitem_tuple_out s ix iy iz Hg Ha Hout).
  simpl. repeat split; reflexivity.
Qed.

(** A linear index into a voxset with no point along X or Y raises
    ZeroDivisionError and changes nothing. *)
Theorem linear_index_of_empty_plane s i :
  _nx (hdr (self s)) * _ny (hdr (self s)) = 0 ->
  __getitem__ (ItemInt i) s = (Raise ZeroDivisionError, s).
Proof.
  intros H. unfold __getitem__, item_index, nx, ny, py_floordiv. run.
  rewrite H. reflexivity.
Qed.

(** ** A row read that fails *)

Lemma xyz_keeps_reads ix iy iz :
  keeps (fun s => row_reads (world s)) (xyz ix iy iz).
Proof.
  unfold xyz, x_locations, y_locations, z_locations, _location_arrays,
    gxvox_method, gxvox.
  keeps_all.
Qed.

Lemma xyz_keeps_cache ix iy iz :
  keeps (fun s => (_buffered_plane (self s), _buffered_row (self s),
                   _buffer_np (self s)))
    (xyz ix iy iz).
Proof.
  unfold xyz, x_locations, y_locations, z_locations, _location_arrays,
    gxvox_method, gxvox.
  keeps_all.
Qed.

(** An access to the row the cache key names reads nothing, whatever it
    returns. *)
Lemma hit_reads_nothing s ix iy iz :
  cached (self s) iz iy = true ->
  row_reads (world (snd (__getitem__ (ItemTuple ix iy iz) s))) = row_reads (world s).
Proof.
  intros Hc. unfold __getitem__.
  erewrite bind_run by reflexivity. cbv beta iota.
  pose proof (xyz_keeps_reads ix iy iz s) as Kr.
  pose proof (xyz_keeps_cache ix iy iz s) as Kc.
  simpl in Kr, Kc.
  destruct (xyz ix iy iz s) as [[[[x y] z] | e] s1] eqn:Ex; simpl in Kr, Kc.
  - erewrite bind_run by (exact Ex). cbv beta iota.
    injection Kc as Kp Kq Kb.
    unfold cached in Hc. apply negb_true_iff in Hc.
    rewrite <- Kp, <- Kq in Hc.
    run. rewrite Hc. run. unfold buffer_item. run.
    destruct (_buffer_np (self s1)) as [a | ]; run; [ | exact Kr].
    destruct (np_getitem a ix) as [c | e]; run; [ | exact Kr].
    destruct (_is_int (hdr (self s1))); run.
    + destruct (py_int c); exact Kr.
    + destruct (np_isnan c); exact Kr.
  - erewrite bind_raise by (exact Ex). exact Kr.
Qed.

(** When the storage rejects the row of an access whose coordinates were
    found, the access raises the storage error after the cache key was moved
    to that row: the key names the rejected row while the buffer still holds
    what it held, and a later access to that row reads nothing. *)
Theorem failed_read_moves_the_key g s ix iy iz p :
  attached g (self s) ->
  xyz_pure g ix iy iz = Ok p ->
  cached (self s) iz iy = false ->
  pg_row (pager g) iz iy = None ->
  let s' := snd (__getitem__ (ItemTuple ix iy iz) s) in
  fst (__getitem__ (ItemTuple ix iy iz) s) = Raise GXAPIError /\
  row_reads (world s') = (iz, iy) :: row_reads (world s) /\
  _buffered_plane (self s') = Some iz /\
  _buffered_row (self s') = Some iy /\
  _buffer_np (self s') = _buffer_np (self s) /\
  (forall ix',
     row_reads (world (snd (__getitem__ (ItemTuple ix' iy iz) s'))) =
     row_reads (world s')).
Proof.
  intros Ha Ex Hc Er. destruct s as [v w]. simpl in Ha, Hc.
  pose proof (att_gxvox Ha) as Hgv. pose proof (att_pg Ha) as Hpg.
  assert (E : __getitem__ (ItemTuple ix iy iz) (mkSt v w) =
              (Raise GXAPIError,
               mkSt
                 (let v1 := set_buffered_row (Some iy)
                              (set_buffered_plane (Some iz) (load g v)) in
                  let v2 := match _vv_ v with
                            | Some _ => v1
                            | None => set_vv (Some (mkGXvv (Some (_dtype (hdr v))) [])) v1
                            end in
                  match _pg_ v with
                  | Some _ => v2
                  | None => set_pg (Some (pager g)) v2
                  end)
                 (log_read iz iy w))).
  { unfold __getitem__.
    erewrite bind_run by reflexivity. cbv beta iota.
    erewrite bind_run by (rewrite (xyz_run w ix iy iz Ha), Ex; reflexivity).
    destruct p as [[x y] z]. cbv beta iota.
    unfold cached in Hc. apply negb_false_iff in Hc.
    run. rewrite Hc. run. unfold _vv, _pg. run.
    destruct (_vv_ v) as [b | ] eqn:Evv; run.
    all: destruct Hpg as [Epg | Epg]; rewrite Epg; run; rewrite ?Hgv; run.
    all: unfold read_row_3d; run; rewrite ?Epg; run; rewrite Er; reflexivity. }
  cbv zeta. rewrite E. simpl fst. simpl snd.
  match goal with
  | |- context [mkSt ?u (log_read iz iy w)] =>
      assert (Hkey : _buffered_plane u = Some iz /\ _buffered_row u = Some iy /\
                     _buffer_np u = _buffer_np v)
        by (cbv zeta; destruct (_pg_ v), (_vv_ v); repeat split; reflexivity)
  end.
  destruct Hkey as (Kp & Kq & Kb).
  split; [reflexivity | ]. split; [reflexivity | ].
  split; [exact Kp | ]. split; [exact Kq | ]. split; [exact Kb | ].
  intros ix'. apply hit_reads_nothing. apply cached_true.
  simpl self. split; [exact Kp | exact Kq].
Qed.

(** ** The location arrays and the coordinate system *)

(** Whichever location array is asked for first, one request to the storage
    loads all three; from then on each is answered from the object, without
    a change of state, also when the storage handle is gone. *)
Theorem location_arrays_loaded_once g s :
  attached g (self s) ->
  let s1 := snd (x_locations s) in
  x_locations s = (Ok (Some (xs_of g)), s1) /\
  y_locations s = (Ok (Some (ys_of g)), s1) /\
  z_locations s = (Ok (Some (zs_of g)), s1) /\
  (forall h,
     let t := mkSt (set_gxvox h (self s1)) (world s1) in
     x_locations t = (Ok (Some (xs_of g)), t) /\
     y_locations t = (Ok (Some (ys_of g)), t) /\
     z_locations t = (Ok (Some (zs_of g)), t)).
Proof.
  intros [H1 H2 H3 H4 H5 H6 H7 H8 H9].
  destruct s as [v w].
  destruct v as [h ro gv cs nxt xl yl zl pg vv bp br buf op].
  simpl in *. subst gv.
  unfold x_locations, y_locations, z_locations, _location_arrays,
    xs_of, ys_of, zs_of in *.
  destruct (location_points g) as [[xs ys] zs] eqn:E.
  destruct H7 as [(-> & -> & ->) | (-> & -> & ->)]; run; rewrite ?E; run.
  all: repeat split; reflexivity.
Qed.

(** The coordinate system is asked of the storage once: the first call on an
    open voxset fetches it, later calls return the same without consulting
    the handle. *)
Theorem coordinate_system_fetched_once g s :
  _gxvox (self s) = Some g -> _cs (self s) = None ->
  let s1 := snd (coordinate_system s) in
  coordinate_system s = (Ok (Some (ipj g)), s1) /\
  (forall h,
     let t := mkSt (set_gxvox h (self s1)) (world s1) in
     coordinate_system t = (Ok (Some (ipj g)), t)).
Proof.
  intros Eg Ec. unfold coordinate_system. run. rewrite Ec. run. rewrite Eg. run.
  split; reflexivity.
Qed.

(** ** Releasing the pager *)

Lemma set_pg_none_attached g v : attached g v -> attached g (set_pg None v).
Proof. intros [H1 H2 H3 H4 H5 H6 H7 H8 H9]. constructor; simpl; auto. Qed.

(** Releasing the pager loses nothing: the cached row is still served
    without a read, any other row is read through a new pager, and the cell
    returned is the stored one. *)
Theorem release_pg_keeps_access g s ix iy iz :
  storage_ok g -> attached g (self s) -> in_range g ix iy iz ->
  let s1 := snd (_release_pg s) in
  let s2 := snd (__getitem__ (ItemTuple ix iy iz) s1) in
  _pg_ (self s1) = None /\
  fst (__getitem__ (ItemTuple ix iy iz) s1) = Ok (the_cell g ix iy iz) /\
  row_reads (world s2) =
    ((if cached (self s) iz iy then [] else [(iz, iy)]) ++ row_reads (world s))%list /\
  _pg_ (self s2) = (if cached (self s) iz iy then None else Some (pager g)).
Proof.
  intros Hg Ha Hr. cbv zeta.
  assert (Ha1 : attached g (self (snd (_release_pg s))))
    by (apply set_pg_none_attached; exact Ha).
  split; [reflexivity | ].
  rewrite (getitem_tuple_run _ Hg Ha1 Hr). cbn [fst snd].
  split; [reflexivity | ].
  split; [rewrite accessed_reads; reflexivity | ].
  unfold accessed. simpl.
  change (cached (set_pg None (self s)) iz iy) with (cached (self s) iz iy).
  destruct Hr as (_ & Hy & Hz).
  destruct (ok_rows Hg Hz Hy) as (r & Er & _).
  destruct (cached (self s) iz iy); simpl; [reflexivity | ].
  unfold fetch. rewrite Er. reflexivity.
Qed.

(** ** The storage reads of a whole iteration *)

(** The (plane, row) of a linear index, and of a row number. *)
Definition row_key (g : GXVOX) (i : Z) : Z * Z :=
  (i / (info_nx g * info_ny g), i / info_nx g mod info_ny g).

Definition row_number_key (g : GXVOX) (j : Z) : Z * Z :=
  (j / info_ny g, j mod info_ny g).

(** The rows in storage order: plane by plane, row by row. *)
Definition all_rows (g : GXVOX) : list (Z * Z) :=
  flat_map (fun iz => map (fun iy => (iz, iy)) (zrange (info_ny g)))
    (zrange (info_nz g)).

(** The pair the cache is keyed by, if both halves are set. *)
Definition cache_key (v : Voxset) : option (Z * Z) :=
  match _buffered_plane v, _buffered_row v with
  | Some p, Some q => Some (p, q)
  | _, _ => None
  end.

Definition key_eqb (a : option (Z * Z)) (k : Z * Z) : bool :=
  match a with
  | Some (p, q) => (p =? fst k) && (q =? snd k)
  | None => false
  end.

(** The rows a sequence of linear indexes has to read, given the key the
    cache starts with. *)
Fixpoint misses (g : GXVOX) (last : option (Z * Z)) (l : list Z) : list (Z * Z) :=
  match l with
  | [] => []
  | i :: r =>
      ((if key_eqb last (row_key g i) then [] else [row_key g i]) ++
       misses g (Some (row_key g i)) r)%list
  end.

Lemma cached_key v iz iy : cached v iz iy = key_eqb (cache_key v) (iz, iy).
Proof.
  unfold cached, cache_key, key_eqb, py_ne_int.
  destruct (_buffered_plane v) as [p | ], (_buffered_row v) as [q | ]; simpl;
    try reflexivity.
  - destruct (p =? iz), (q =? iy); reflexivity.
  - rewrite orb_true_r. reflexivity.
Qed.

Lemma key_eqb_refl k : key_eqb (Some k) k = true.
Proof. destruct k as [p q]. simpl. rewrite !Z.eqb_refl. reflexivity. Qed.

Lemma stepped_reads g s :
  row_reads (world (stepped g s)) =
  ((if key_eqb (cache_key (self s)) (row_key g (_next (self s))) then []
    else [row_key g (_next (self s))]) ++ row_reads (world s))%list.
Proof.
  unfold stepped, row_key. simpl world.
  rewrite accessed_reads, cached_key. reflexivity.
Qed.

Lemma stepped_key g s :
  storage_ok g ->
  0 <= _next (self s) < info_nx g * info_ny g * info_nz g ->
  cache_key (self (stepped g s)) = Some (row_key g (_next (self s))).
Proof.
  intros Hg Hi.
  destruct (linear_index_in_range Hg Hi) as (_ & Hy & Hz).
  pose proof (accessed_cached s Hg Hy Hz) as Hc.
  apply cached_true in Hc. destruct Hc as (Ep & Eq).
  unfold stepped, cache_key, row_key. simpl. rewrite Ep, Eq. reflexivity.
Qed.

Lemma iterate_reads g (Hg : storage_ok g) (extra : nat) :
  forall (k : nat) (s : St),
    attached g (self s) ->
    Z.of_nat k <= info_nx g * info_ny g * info_nz g ->
    _next (self s) = info_nx g * info_ny g * info_nz g - Z.of_nat k ->
    exists s',
      iterate (S k + extra) s =
      Some (Ok (map (linear_cell g) (zfrom (_next (self s)) k)), s') /\
      row_reads (world s') =
      (rev (misses g (cache_key (self s)) (zfrom (_next (self s)) k)) ++
       row_reads (world s))%list.
Proof.
  induction k as [ | k IH]; intros s Ha Hk Hn.
  - exists (mkSt (set_next 0 (self s)) (world s)).
    simpl iterate. rewrite next_stop by (rewrite (att_max Ha); lia).
    split; reflexivity.
  - assert (Hi : 0 <= _next (self s) < info_nx g * info_ny g * info_nz g) by lia.
    destruct (IH (stepped g s)) as (s' & E & Er).
    + apply stepped_attached; assumption.
    + lia.
    + rewrite stepped_next. lia.
    + exists s'. split.
      * change (iterate (S (S k) + extra) s) with
          (match __next__ s with
           | (Raise StopIteration, s1) => Some (Ok [], s1)
           | (Raise e, s1) => Some (Raise e, s1)
           | (Ok c, s1) =>
               match iterate (S k + extra) s1 with
               | Some (Ok cs, s2) => Some (Ok (c :: cs), s2)
               | r => r
               end
           end).
        rewrite (next_run s Hg Ha Hi), E, stepped_next. reflexivity.
      * rewrite Er, stepped_reads, (stepped_key s Hg Hi), stepped_next.
        simpl misses. rewrite rev_app_distr, <- app_assoc.
        f_equal.
        destruct (key_eqb (cache_key (self s)) (row_key g (_next (self s))));
          reflexivity.
Qed.

Lemma row_key_in_row g j t :
  storage_ok g -> 0 <= j -> 0 <= t < info_nx g ->
  row_key g (j * info_nx g + t) = row_number_key g j.
Proof.
  intros Hg Hj Ht.
  pose proof (ok_nx Hg) as Hx. pose proof (ok_ny Hg) as Hy.
  unfold row_key, row_number_key.
  assert (E : (j * info_nx g + t) / info_nx g = j).
  { rewrite Z.add_comm, Z.div_add by lia. rewrite Z.div_small by lia. lia. }
  rewrite <- Z.div_div by lia. rewrite E. reflexivity.
Qed.

Lemma row_number_key_next g j :
  storage_ok g ->
  key_eqb (Some (row_number_key g j)) (row_number_key g (j + 1)) = false.
Proof.
  intros Hg. pose proof (ok_ny Hg) as Hy.
  unfold key_eqb, row_number_key. simpl.
  destruct (Z.eqb_spec (j / info_ny g) ((j + 1) / info_ny g)) as [E1 | ];
    [ | reflexivity].
  destruct (Z.eqb_spec (j mod info_ny g) ((j + 1) mod info_ny g)) as [E2 | ];
    [ | reflexivity].
  exfalso.
  pose proof (Z.div_mod j (info_ny g) ltac:(lia)).
  pose proof (Z.div_mod (j + 1) (info_ny g) ltac:(lia)).
  rewrite <- E1, <- E2 in H0. lia.
Qed.

Lemma misses_cons g last i r :
  misses g last (i :: r) =
  ((if key_eqb last (row_key g i) then [] else [row_key g i]) ++
   misses g (Some (row_key g i)) r)%list.
Proof. reflexivity. Qed.

Lemma misses_in_row g j last ts rest :
  storage_ok g -> 0 <= j ->
  forall t, Forall (fun t => 0 <= t < info_nx g) (t :: ts) ->
  misses g last (map (fun t => j * info_nx g + t) (t :: ts) ++ rest) =
  ((if key_eqb last (row_number_key g j) then [] else [row_number_key g j]) ++
   misses g (Some (row_number_key g j)) rest)%list.
Proof.
  intros Hg Hj. revert last.
  induction ts as [ | t' ts IH]; intros last t Ht.
  - inversion Ht as [ | ? ? H1 _]; subst.
    simpl. rewrite (row_key_in_row Hg Hj H1). reflexivity.
  - inversion Ht as [ | ? ? H1 H2]; subst.
    change (map (fun t0 => j * info_nx g + t0) (t :: t' :: ts) ++ rest)%list
      with ((j * info_nx g + t) ::
            (map (fun t0 => j * info_nx g + t0) (t' :: ts) ++ rest))%list.
    rewrite misses_cons, (row_key_in_row Hg Hj H1).
    rewrite (IH (Some (row_number_key g j)) t' H2), key_eqb_refl.
    reflexivity.
Qed.

Lemma zfrom_in_range n : Forall (fun t => 0 <= t < n) (zfrom 0 (Z.to_nat n)).
Proof. rewrite <- zrange_zfrom. apply zrange_in_range. Qed.

Lemma misses_rows g (Hg : storage_ok g) :
  forall (m : nat) (a : Z) (last : option (Z * Z)),
    0 <= a ->
    misses g last
      (flat_map (fun j => map (fun t => j * info_nx g + t)
                            (zfrom 0 (Z.to_nat (info_nx g))))
         (zfrom a m)) =
    match m with
    | O => []
    | S m' =>
        ((if key_eqb last (row_number_key g a) then []
          else [row_number_key g a]) ++
         map (row_number_key g) (zfrom (a + 1) m'))%list
    end.
Proof.
  pose proof (ok_nx Hg) as Hx.
  induction m as [ | m IH]; intros a last Ha; [reflexivity | ].
  assert (Hne : exists t ts, zfrom 0 (Z.to_nat (info_nx g)) = t :: ts).
  { destruct (Z.to_nat (info_nx g)) as [ | n] eqn:En; [lia | ].
    simpl. eauto. }
  destruct Hne as (t & ts & Ets).
  pose proof (zfrom_in_range (info_nx g)) as Hts. rewrite Ets in Hts.
  cbn [zfrom flat_map].
  rewrite Ets at 1.
  rewrite (misses_in_row last _ Hg Ha Hts).
  f_equal.
  rewrite (IH (a + 1) (Some (row_number_key g a))) by lia.
  destruct m as [ | m']; [reflexivity | ].
  rewrite (row_number_key_next a Hg). reflexivity.
Qed.

Lemma all_rows_numbered g :
  storage_ok g ->
  map (row_number_key g) (zfrom 0 (Z.to_nat (info_nz g) * Z.to_nat (info_ny g))) =
  all_rows g.
Proof.
  intros Hg. pose proof (ok_ny Hg) as Hy.
  unfold all_rows. rewrite !zrange_zfrom, zfrom_block, map_flat_map_list.
  apply flat_map_ext_In. intros iz Hiz. apply In_zfrom in Hiz.
  rewrite map_map. apply map_ext_in. intros iy Hiy. apply In_zfrom in Hiy.
  unfold row_number_key. rewrite Z2Nat.id by lia.
  f_equal.
  - rewrite Z.div_add_l by lia. rewrite Z.div_small by lia. lia.
  - rewrite Z.add_comm, Z.mod_add by lia. apply Z.mod_small. lia.
Qed.

(** A whole iteration of a voxset that has not the first row cached reads
    every row of the storage exactly once, plane by plane and row by row:
    [ny*nz] reads for [nx*ny*nz] cells. *)
Theorem iteration_reads_each_row_once g s fuel :
  storage_ok g -> attached g (self s) -> _next (self s) = 0 ->
  cached (self s) 0 0 = false ->
  (Z.to_nat (info_nx g * info_ny g * info_nz g) < fuel)%nat ->
  exists s1,
    iterate fuel s = Some (Ok (all_cells g), s1) /\
    row_reads (world s1) = (rev (all_rows g) ++ row_reads (world s))%list /\
    List.length (all_rows g) = Z.to_nat (info_ny g * info_nz g).
Proof.
  intros Hg Ha Hn Hc Hf.
  pose proof (ok_nx Hg) as Hx. pose proof (ok_ny Hg) as Hy.
  pose proof (ok_nz Hg) as Hz.
  set (k := Z.to_nat (info_nx g * info_ny g * info_nz g)) in *.
  destruct (@iterate_reads g Hg (fuel - S k)%nat k s Ha) as (s1 & E & Er).
  - subst k. lia.
  - subst k. rewrite Hn. nia.
  - assert (Hrows : misses g (cache_key (self s)) (zfrom 0 k) = all_rows g).
    { subst k.
      replace (Z.to_nat (info_nx g * info_ny g * info_nz g))
        with (Z.to_nat (info_nz g) * Z.to_nat (info_ny g) * Z.to_nat (info_nx g))%nat
        by lia.
      rewrite zfrom_block, Z2Nat.id by lia.
      rewrite (misses_rows Hg) by lia.
      destruct (Z.to_nat (info_nz g) * Z.to_nat (info_ny g))%nat as [ | m] eqn:Em;
        [nia | ].
      rewrite <- (all_rows_numbered Hg), Em. simpl zfrom.
      assert (E0 : row_number_key g 0 = (0, 0)).
      { unfold row_number_key. rewrite Z.div_0_l, Z.mod_0_l by lia. reflexivity. }
      rewrite E0, <- cached_key, Hc. reflexivity. }
    exists s1. split; [ | split].
    + replace fuel with (S k + (fuel - S k))%nat by lia.
      rewrite E, Hn. subst k.
      rewrite <- zrange_zfrom, (all_cells_linear Hg). reflexivity.
    + rewrite Er, Hn, Hrows. reflexivity.
    + rewrite <- (all_rows_numbered Hg), length_map, zfrom_length. lia.
Qed.

(** ** Deleting the files of a voxset *)

Definition removable (fn : string) (d : Disk) : bool :=
  existsb (String.eqb fn) (present d) && negb (refused d fn).

Lemma df_nul fn d : has_nul fn = true -> df fn d = (Raise ValueError, d).
Proof. intros H. unfold df, os_remove. rewrite H. reflexivity. Qed.

Lemma df_run fn d :
  has_nul fn = false ->
  df fn d =
  (Ok tt,
   if removable fn d
   then mkDisk (filter (fun p => negb (String.eqb fn p)) (present d)) (refused d)
   else d).
Proof.
  intros H. unfold df, os_remove, removable. rewrite H.
  destruct (existsb (String.eqb fn) (present d) && negb (refused d fn)); reflexivity.
Qed.

Lemma has_nul_app a b : has_nul (a ++ b) = has_nul a || has_nul b.
Proof.
  induction a as [ | c r IH]; simpl; [reflexivity | ].
  rewrite IH. apply orb_assoc.
Qed.

Lemma existsb_eqb_In fn l : existsb (String.eqb fn) l = true <-> In fn l.
Proof.
  rewrite existsb_exists. split.
  - intros (x & Hx & E). apply String.eqb_eq in E. subst. exact Hx.
  - intros H. exists fn. split; [exact H | apply String.eqb_refl].
Qed.

Lemma df_present fn d p :
  has_nul fn = false ->
  In p (present (snd (df fn d))) <->
  In p (present d) /\ (p = fn -> refused d fn = true).
Proof.
  intros Hn. rewrite (df_run _ d Hn). simpl. unfold removable.
  destruct (existsb (String.eqb fn) (present d)) eqn:Ee; simpl.
  - destruct (refused d fn) eqn:Er; simpl.
    + tauto.
    + rewrite filter_In, negb_true_iff, String.eqb_neq. split.
      * intros (H1 & H2). split; [exact H1 | ]. intros ->. contradiction.
      * intros (H1 & H2). split; [exact H1 | ]. intros ->.
        specialize (H2 eq_refl). discriminate.
  - split; [ | tauto]. intros H. split; [exact H | ]. intros ->.
    apply existsb_eqb_In in H. congruence.
Qed.

Lemma df_refused fn d : refused (snd (df fn d)) = refused d.
Proof.
  unfold df, os_remove.
  destruct (has_nul fn); [reflexivity | ].
  destruct (existsb (String.eqb fn) (present d) && negb (refused d fn)); reflexivity.
Qed.


(** A [delete_files] that returned is final: the same call again returns and
    leaves the disk as it is. *)
Theorem delete_files_twice voxset_name d :
  fst (delete_files voxset_name d) = Ok tt ->
  delete_files voxset_name (snd (delete_files voxset_name d)) =
  (Ok tt, snd (delete_files voxset_name d)).
Proof.
  destruct voxset_name as [n | ]; [ | reflexivity].
  intros Hok.
  assert (Hn : has_nul n = false).
  { destruct (has_nul n) eqn:E; [ | reflexivity].
    unfold delete_files in Hok. rewrite (df_nul _ d E) in Hok. discriminate. }
  assert (Hx : has_nul (n ++ ".xml") = false)
    by (rewrite has_nul_app, Hn; reflexivity).
  assert (Hgone : forall fn e, has_nul fn = false ->
            removable fn (snd (df fn e)) = false).
  { intros fn e Hf. rewrite (df_run _ e Hf). simpl. unfold removable.
    destruct (existsb (String.eqb fn) (present e)) eqn:Ee; simpl.
    - destruct (refused e fn) eqn:Er; simpl.
      + rewrite Ee, Er. reflexivity.
      + replace (existsb (String.eqb fn)
                   (filter (fun p => negb (String.eqb fn p)) (present e)))
          with false; [reflexivity | ].
        symmetry. apply not_true_is_false. intros H.
        apply existsb_eqb_In, filter_In in H. destruct H as (_ & H).
        rewrite String.eqb_refl in H. discriminate.
    - rewrite Ee. reflexivity. }
  assert (Hmono : forall fn fn' e, has_nul fn' = false ->
            removable fn e = false -> removable fn (snd (df fn' e)) = false).
  { intros fn fn' e Hf H. unfold removable in *.
    rewrite df_refused.
    destruct (refused e fn); [apply andb_false_r | ].
    rewrite andb_true_r in *.
    apply not_true_is_false. intros H1.
    apply existsb_eqb_In, (df_present _ e _ Hf) in H1. destruct H1 as (H1 & _).
    apply existsb_eqb_In in H1. congruence. }
  assert (Hskip : forall fn e, has_nul fn = false ->
            removable fn e = false -> df fn e = (Ok tt, e)).
  { intros fn e Hf H. rewrite (df_run _ e Hf), H. reflexivity. }
  unfold delete_files.
  rewrite (df_run n d Hn). simpl.
  set (d1 := if removable n d
             then mkDisk (filter (fun p => negb (String.eqb n p)) (present d))
                    (refused d)
             else d).
  assert (E1 : d1 = snd (df n d)) by (rewrite (df_run _ d Hn); reflexivity).
  rewrite (df_run (n ++ ".xml") d1 Hx). simpl.
  set (d2 := if removable (n ++ ".xml") d1
             then mkDisk (filter (fun p => negb (String.eqb (n ++ ".xml") p)) (present d1))
                    (refused d1)
             else d1).
  assert (E2 : d2 = snd (df (n ++ ".xml") d1)) by (rewrite (df_run _ d1 Hx); reflexivity).
  assert (G1 : removable n d2 = false).
  { rewrite E2. apply (Hmono _ _ _ Hx). rewrite E1. apply (Hgone _ _ Hn). }
  assert (G2 : removable (n ++ ".xml") d2 = false).
  { rewrite E2. apply (Hgone _ _ Hx). }
  rewrite (Hskip n d2 Hn G1), (Hskip (n ++ ".xml") d2 Hx G2). reflexivity.
Qed.

(** ** Any time after close *)


(** Cell accesses made one after the other by a caller who goes on after an
    exception. *)
Definition attempts (items : list Item) (s : St) : St :=
  fold_left (fun t i => snd (__getitem__ i t)) items s.














End Properties.

(** * The properties at the worked voxel *)

#[local] Existing Instance Demo.geosoft.

Lemma demo_storage_ok : storage_ok Demo.demo_vox.
Proof.
  constructor; try reflexivity.
  intros iz iy Hz Hy. simpl in Hz, Hy.
  assert (iz = 0) by lia. subst iz.
  assert (iy = 0 \/ iy = 1) as [-> | ->] by lia.
  - exists [SFloat 1; SFloat 2]. repeat split. discriminate.
  - exists [SFloat 3; SFloat 4]. repeat split. discriminate.
Qed.

Lemma demo_attached : attached Demo.demo_vox (self Demo.demo).
Proof. apply init_attached. Qed.

(** C1.  With the X spacing set to the sentinel, [dx] is None and yet
    [uniform_dx] is True; [uniform_dy] is False although the Y spacing is the
    uniform 2. *)
Theorem uniform_dx_true_on_sentinel :
  _dx (hdr (self Demo.nonuniform)) = rDUMMY /\
  _dy (hdr (self Demo.nonuniform)) = 2%float /\
  fst (dx Demo.nonuniform) = Ok None /\
  fst (uniform_dx Demo.nonuniform) = Ok true /\
  fst (uniform_dy Demo.nonuniform) = Ok false.
Proof. repeat split; vm_compute; reflexivity. Qed.

(** C2.  With X spacing 1 and Y spacing 2, [dy] returns 1, the X spacing. *)
Theorem dy_returns_x_spacing :
  _dx (hdr (self Demo.skew)) = 1%float /\
  _dy (hdr (self Demo.skew)) = 2%float /\
  fst (dy Demo.skew) = Ok (Some 1%float).
Proof. repeat split; vm_compute; reflexivity. Qed.


(** C5.  In a voxel of 64-bit integers the cell that holds the dummy of that
    type, GS_S8DM, is returned as a number: the access tests the value
    against gxapi.iDUMMY, the dummy of 32-bit integers, whatever the integer
    type. *)
Theorem wide_integer_dummy_is_returned :
  open "long64" None Demo.long64_world = Ok Demo.long64 /\
  is_int (info_type Demo.long64_vox) = true /\
  stored Demo.long64_vox 1 0 0 = SInt Demo.GS_S8DM /\
  Demo.GS_S8DM <> iDUMMY /\
  fst (__getitem__ (ItemTuple 1 0 0) Demo.long64) =
    Ok (1%float, 0%float, 0%float, Some (SInt Demo.GS_S8DM)) /\
  fst (__getitem__ (ItemInt 1) Demo.long64) =
    Ok (1%float, 0%float, 0%float, Some (SInt Demo.GS_S8DM)).
Proof.
  split; [vm_compute; reflexivity | ].
  split; [reflexivity | ].
  split; [reflexivity | ].
  split; [discriminate | ].
  split; vm_compute; reflexivity.
Qed.

Lemma roundtrip_indexing_witness :
  let i := linear Demo.demo_vox 1 1 0 in
  __getitem__ (ItemInt i) Demo.demo = __getitem__ (ItemTuple 1 1 0) Demo.demo /\
  fst (__getitem__ (ItemTuple 1 1 0) Demo.demo) = Ok (the_cell Demo.demo_vox 1 1 0) /\
  fst (__getitem__ (ItemInt i) (snd (__getitem__ (ItemTuple 1 1 0) Demo.demo))) =
    Ok (the_cell Demo.demo_vox 1 1 0) /\
  fst (__getitem__ (ItemTuple 1 1 0) (snd (__getitem__ (ItemInt i) Demo.demo))) =
    Ok (the_cell Demo.demo_vox 1 1 0) /\
  fst (item_index (ItemInt i) Demo.demo) =
    Ok (decode_spec (info_nx Demo.demo_vox) (info_ny Demo.demo_vox) i) /\
  decode_spec (info_nx Demo.demo_vox) (info_ny Demo.demo_vox) i = (1, 1, 0).
Proof.
  apply (@roundtrip_indexing Demo.geosoft Demo.demo_vox Demo.demo 1 1 0).
  - exact demo_storage_ok.
  - exact demo_attached.
  - unfold in_range. simpl. lia.
Defined.

Lemma iteration_complete_restartable_witness :
  exists s1 s2,
    iterate 5 Demo.demo = Some (Ok (all_cells Demo.demo_vox), s1) /\
    List.length (all_cells Demo.demo_vox) = Z.to_nat (2 * 2 * 1) /\
    all_cells Demo.demo_vox =
      map (linear_cell Demo.demo_vox) (zrange (2 * 2 * 1)) /\
    _next (self s1) = 0 /\
    iterate 5 s1 = Some (Ok (all_cells Demo.demo_vox), s2) /\
    _next (self s2) = 0.
Proof.
  apply (@iteration_complete_restartable Demo.geosoft Demo.demo_vox Demo.demo 5).
  - exact demo_storage_ok.
  - exact demo_attached.
  - reflexivity.
  - simpl. lia.
Defined.

Lemma missing_value_translation_witness :
  exists x y z v,
    fst (__getitem__ (ItemTuple 0 1 0) Demo.demo) = Ok (x, y, z, v) /\
    fst (__getitem__ (ItemInt (linear Demo.demo_vox 0 1 0)) Demo.demo) =
      Ok (x, y, z, v) /\
    (is_int (info_type Demo.demo_vox) = true ->
       exists n, stored Demo.demo_vox 0 1 0 = SInt n /\
                 (v = None <-> n = iDUMMY) /\
                 (n <> iDUMMY -> v = Some (SInt n))) /\
    (is_int (info_type Demo.demo_vox) = false ->
       let c := dummy_to_nan1 (stored Demo.demo_vox 0 1 0) in
       (v = None <-> np_isnan c = true) /\
       (np_isnan c = false -> v = Some (stored Demo.demo_vox 0 1 0)) /\
       (forall f, stored Demo.demo_vox 0 1 0 = SFloat f ->
          (np_isnan c = true <->
           PrimFloat.eqb f rDUMMY = true \/ PrimFloat.is_nan f = true))).
Proof.
  apply (@missing_value_translation Demo.geosoft Demo.demo_vox Demo.demo 0 1 0).
  - exact demo_storage_ok.
  - exact demo_attached.
  - unfold in_range. simpl. lia.
Defined.

Lemma row_cache_single_slot_witness :
  (forall ix iy iz, in_range Demo.demo_vox ix iy iz ->
     let s' := snd (__getitem__ (ItemTuple ix iy iz) Demo.demo) in
     row_reads (world s') =
       ((if cached (self Demo.demo) iz iy then [] else [(iz, iy)]) ++
        row_reads (world Demo.demo))%list /\
     _buffered_plane (self s') = Some iz /\
     _buffered_row (self s') = Some iy /\
     snd (__getitem__ (ItemInt (linear Demo.demo_vox ix iy iz)) Demo.demo) = s') /\
  (forall iy iz iy' iz',
     0 <= iy < info_ny Demo.demo_vox -> 0 <= iz < info_nz Demo.demo_vox ->
     0 <= iy' < info_ny Demo.demo_vox -> 0 <= iz' < info_nz Demo.demo_vox ->
     (iz, iy) <> (iz', iy') ->
     let s1 := snd (getitems (row_items Demo.demo_vox iy iz) Demo.demo) in
     let s2 := snd (getitems (row_items Demo.demo_vox iy' iz') s1) in
     let s3 := snd (getitems (row_items Demo.demo_vox iy iz) s2) in
     row_reads (world s1) =
       ((if cached (self Demo.demo) iz iy then [] else [(iz, iy)]) ++
        row_reads (world Demo.demo))%list /\
     row_reads (world s2) = (iz', iy') :: row_reads (world s1) /\
     row_reads (world s3) = (iz, iy) :: row_reads (world s2)).
Proof.
  apply (@row_cache_single_slot Demo.geosoft Demo.demo_vox Demo.demo).
  - exact demo_storage_ok.
  - exact demo_attached.
Defined.

(** The three sweeps of the worked voxel: row 0, row 1, row 0 again cost one
    read each. *)
Example demo_three_sweeps :
  let s1 := snd (getitems (row_items Demo.demo_vox 0 0) Demo.demo) in
  let s2 := snd (getitems (row_items Demo.demo_vox 1 0) s1) in
  let s3 := snd (getitems (row_items Demo.demo_vox 0 0) s2) in
  row_reads (world s3) = [(0, 0); (0, 1); (0, 0)].
Proof. vm_compute. reflexivity. Qed.

(** C7, as stated, fails: the index -1 is outside [0, nx) and the lookup
    returns the coordinates of the last point; and the failure at nx is an
    IndexError, which is not a VoxsetException. *)
Lemma xyz_accepts_negative_index :
  ~ (0 <= -1 < info_nx Demo.demo_vox) /\
  fst (xyz (-1) 0 0 Demo.demo) = Ok (1, 0, 0)%float /\
  fst (xyz (info_nx Demo.demo_vox) 0 0 Demo.demo) = Raise IndexError /\
  IndexError <> VoxsetException.
Proof.
  split; [simpl; lia | ].
  split; [vm_compute; reflexivity | ].
  split; [vm_compute; reflexivity | discriminate].
Qed.

Lemma xyz_bounds_witness :
  fst (xyz (-3) 0 0 Demo.demo) =
    (if index_ok (-3) (info_nx Demo.demo_vox) && index_ok 0 (info_ny Demo.demo_vox) &&
        index_ok 0 (info_nz Demo.demo_vox)
     then Ok (nth (Z.to_nat (wrap (-3) (info_nx Demo.demo_vox))) (xs_of Demo.demo_vox) 0%float,
              nth (Z.to_nat (wrap 0 (info_ny Demo.demo_vox))) (ys_of Demo.demo_vox) 0%float,
              nth (Z.to_nat (wrap 0 (info_nz Demo.demo_vox))) (zs_of Demo.demo_vox) 0%float)
     else Raise IndexError) /\
  fst (xyz (info_nx Demo.demo_vox) 0 0 Demo.demo) = Raise IndexError /\
  fst (xyz 0 (info_ny Demo.demo_vox) 0 Demo.demo) = Raise IndexError /\
  fst (xyz 0 0 (info_nz Demo.demo_vox) Demo.demo) = Raise IndexError.
Proof.
  apply (@xyz_bounds Demo.geosoft Demo.demo_vox Demo.demo (-3) 0 0).
  - exact demo_storage_ok.
  - exact demo_attached.
Defined.



(** Read a cell of row 0, close, ask for a cell of row 1 twice: the first
    time the access raises AttributeError and moves the key, the second time
    it returns the value of row 0 at that column (1, where row 1 holds 3). *)
Example stale_after_close :
  let s := snd (close (snd (__getitem__ (ItemTuple 0 0 0) Demo.demo))) in
  fst (__getitem__ (ItemTuple 0 1 0) s) = Raise AttributeError /\
  fst (__getitem__ (ItemTuple 0 1 0) (attempts [ItemTuple 0 1 0] s)) =
    Ok (0, 1, 0, Some (SFloat 1))%float /\
  the_cell Demo.demo_vox 0 1 0 = (0, 1, 0, Some (SFloat 3))%float.
Proof. cbv zeta. repeat split; vm_compute; reflexivity. Qed.

(** * File names, with the POSIX [os.path] *)

Fixpoint no_char (c : ascii) (s : string) : bool :=
  match s with
  | EmptyString => true
  | String a r => negb (Ascii.eqb a c) && no_char c r
  end.

(** A plain base name: not empty, no directory part, no dot. *)
Definition plain (b : string) : bool :=
  negb (String.eqb b "") && no_char "/" b && no_char "." b.

Lemma rfind_from_absent c s i f :
  no_char c s = true -> Demo.rfind_from c s i f = f.
Proof.
  revert i f. induction s as [ | a r IH]; intros i f H; simpl in *; [reflexivity | ].
  apply andb_true_iff in H. destruct H as (Ha & Hr).
  apply negb_true_iff in Ha. rewrite Ha. apply IH. exact Hr.
Qed.

Lemma rfind_from_app c s1 s2 i f :
  Demo.rfind_from c (s1 ++ s2) i f =
  Demo.rfind_from c s2 (i + Z.of_nat (String.length s1)) (Demo.rfind_from c s1 i f).
Proof.
  revert i f. induction s1 as [ | a r IH]; intros i f.
  - simpl. f_equal. lia.
  - simpl Demo.rfind_from. simpl String.length. rewrite IH.
    f_equal. lia.
Qed.

Lemma substring_prefix b e :
  substring 0 (String.length b) (b ++ e) = b.
Proof.
  induction b as [ | a r IH]; simpl.
  - destruct e; reflexivity.
  - rewrite IH. reflexivity.
Qed.

Lemma substring_suffix b e :
  substring (String.length b) (String.length e) (b ++ e) = e.
Proof.
  induction b as [ | a r IH]; simpl.
  - induction e as [ | a r IH]; simpl; [reflexivity | ]. rewrite IH. reflexivity.
  - exact IH.
Qed.

Lemma substring_all s : substring 0 (String.length s) s = s.
Proof. induction s as [ | a r IH]; simpl; [reflexivity | ]. rewrite IH. reflexivity. Qed.

Lemma length_append b e :
  String.length (b ++ e) = (String.length b + String.length e)%nat.
Proof. induction b as [ | a r IH]; simpl; [reflexivity | ]. rewrite IH. reflexivity. Qed.

Lemma all_dots_plain b :
  String.eqb b "" = false -> no_char "." b = true -> Demo.all_dots b = false.
Proof.
  destruct b as [ | a r]; simpl; [discriminate | ].
  intros _ H. apply andb_true_iff in H. destruct H as (Ha & _).
  apply negb_true_iff in Ha. rewrite Ha. reflexivity.
Qed.

Lemma posix_splitext_plain b :
  plain b = true -> Demo.posix_splitext b = (b, "").
Proof.
  intros H. unfold plain in H.
  apply andb_true_iff in H. destruct H as (H & Hd).
  apply andb_true_iff in H. destruct H as (_ & Hs).
  unfold Demo.posix_splitext, Demo.rfind.
  rewrite (rfind_from_absent _ _ _ _ Hs), (rfind_from_absent _ _ _ _ Hd).
  reflexivity.
Qed.

Lemma posix_splitext_voxel b :
  plain b = true ->
  Demo.posix_splitext (b ++ ".geosoft_voxel") = (b, ".geosoft_voxel").
Proof.
  intros H. unfold plain in H.
  apply andb_true_iff in H. destruct H as (H & Hd).
  apply andb_true_iff in H. destruct H as (Hn & Hs).
  apply negb_true_iff in Hn.
  unfold Demo.posix_splitext, Demo.rfind.
  rewrite !rfind_from_app.
  rewrite (rfind_from_absent _ _ _ _ Hs), (rfind_from_absent _ _ _ _ Hd).
  change (Demo.rfind_from "/" ".geosoft_voxel" (0 + Z.of_nat (String.length b)) (-1))
    with (-1).
  change (Demo.rfind_from "." ".geosoft_voxel" (0 + Z.of_nat (String.length b)) (-1))
    with (0 + Z.of_nat (String.length b)).
  replace (-1 <? 0 + Z.of_nat (String.length b)) with true
    by (symmetry; apply Z.ltb_lt; lia).
  unfold Demo.str_slice.
  replace (Z.to_nat (-1 + 1)) with 0%nat by reflexivity.
  replace (Z.to_nat (0 + Z.of_nat (String.length b) - (-1 + 1)))
    with (String.length b) by lia.
  replace (Z.to_nat 0) with 0%nat by reflexivity.
  replace (Z.to_nat (0 + Z.of_nat (String.length b) - 0))
    with (String.length b) by lia.
  replace (Z.to_nat (0 + Z.of_nat (String.length b))) with (String.length b) by lia.
  replace (Z.to_nat (Z.of_nat (String.length (b ++ ".geosoft_voxel")) -
                     (0 + Z.of_nat (String.length b))))
    with (String.length ".geosoft_voxel") by (rewrite length_append; lia).
  rewrite substring_prefix, substring_suffix, (all_dots_plain b Hn Hd).
  reflexivity.
Qed.

Lemma posix_basename_plain b :
  plain b = true ->
  Demo.posix_basename (b ++ ".geosoft_voxel") = b ++ ".geosoft_voxel".
Proof.
  intros H. unfold plain in H.
  apply andb_true_iff in H. destruct H as (H & _).
  apply andb_true_iff in H. destruct H as (_ & Hs).
  unfold Demo.posix_basename, Demo.rfind.
  rewrite rfind_from_app, (rfind_from_absent _ _ _ _ Hs).
  change (Demo.rfind_from "/" ".geosoft_voxel" (0 + Z.of_nat (String.length b)) (-1))
    with (-1).
  unfold Demo.str_slice.
  replace (Z.to_nat (-1 + 1)) with 0%nat by reflexivity.
  replace (Z.to_nat (Z.of_nat (String.length (b ++ ".geosoft_voxel")) - (-1 + 1)))
    with (String.length (b ++ ".geosoft_voxel")) by lia.
  apply substring_all.
Qed.

(** With the POSIX path functions, a plain base name gets the extension
    appended; a name that has the extension is kept as it is; and the voxset
    name recovered from the file name is the base name again. *)
Theorem posix_names_roundtrip b :
  plain b = true ->
  _voxset_file_name b = b ++ ".geosoft_voxel" /\
  _voxset_file_name (b ++ ".geosoft_voxel") = b ++ ".geosoft_voxel" /\
  _voxset_name (_voxset_file_name b) = b.
Proof.
  intros H.
  assert (E1 : _voxset_file_name b = b ++ ".geosoft_voxel").
  { unfold _voxset_file_name.
    change (splitext b) with (Demo.posix_splitext b).
    rewrite (posix_splitext_plain b H). reflexivity. }
  split; [exact E1 | ]. split.
  - unfold _voxset_file_name.
    change (splitext (b ++ ".geosoft_voxel"))
      with (Demo.posix_splitext (b ++ ".geosoft_voxel")).
    rewrite (posix_splitext_voxel b H). reflexivity.
  - rewrite E1. unfold _voxset_name.
    change (basename (b ++ ".geosoft_voxel"))
      with (Demo.posix_basename (b ++ ".geosoft_voxel")).
    rewrite (posix_basename_plain b H).
    change (splitext (b ++ ".geosoft_voxel"))
      with (Demo.posix_splitext (b ++ ".geosoft_voxel")).
    rewrite (posix_splitext_voxel b H). reflexivity.
Qed.

(** * The further properties at the worked voxel *)

Lemma close_is_idempotent_witness :
  close (snd (close Demo.demo)) = (Ok tt, snd (close Demo.demo)).
Proof.
  apply (@close_is_idempotent Demo.geosoft Demo.demo (snd (close Demo.demo))).
  reflexivity.
Defined.

Lemma close_releases_witness :
  let s' := snd (close Demo.demo) in
  fst (close Demo.demo) = Ok tt /\
  map snd (fs_writes (world s')) =
    (if _metadata_changed (hdr (self Demo.demo))
     then xml_from_dict (_metadata (hdr (self Demo.demo))) ::
          map snd (fs_writes (world Demo.demo))
     else map snd (fs_writes (world Demo.demo))) /\
  registry (world s') = pop_resource 1 (registry (world Demo.demo)) /\
  (_open (self s') = None /\ _gxvox (self s') = None /\ _cs (self s') = None /\
   _pg_ (self s') = None /\ _vv_ (self s') = None) /\
  (hdr (self s') = hdr (self Demo.demo) /\
   _next (self s') = _next (self Demo.demo) /\
   _xloc (self s') = _xloc (self Demo.demo) /\
   _yloc (self s') = _yloc (self Demo.demo) /\
   _zloc (self s') = _zloc (self Demo.demo) /\
   _buffered_plane (self s') = _buffered_plane (self Demo.demo) /\
   _buffered_row (self s') = _buffered_row (self Demo.demo) /\
   _buffer_np (self s') = _buffer_np (self Demo.demo)).
Proof.
  apply (@close_releases Demo.geosoft Demo.demo 1).
  - reflexivity.
  - lia.
  - left. reflexivity.
Defined.

(** No method of the class sets [_metadata_changed].  This state has the
    flag set from outside, in a directory that cannot be written, to meet
    the branch of [_close] that tests it. *)
Definition flag_set_no_write : St :=
  let v := self Demo.demo in
  let h := hdr v in
  mkSt
    (mkVoxset
       (mkHeader (_file_name h) (_name h) (_metadata h) true (_metadata_root h)
          (_dtype h) (_is_int h) (_nx h) (_ny h) (_nz h) (_max_iter h)
          (_x0 h) (_y0 h) (_z0 h) (_dx h) (_dy h) (_dz h))
       (_readonly v) (_gxvox v) (_cs v) (_next v) (_xloc v) (_yloc v)
       (_zloc v) (_pg_ v) (_vv_ v) (_buffered_plane v) (_buffered_row v)
       (_buffer_np v) (_open v))
    (mkWorld (fun _ => false) [] (voxel_files (world Demo.demo))
       (registry (world Demo.demo)) []).

Lemma close_fails_before_release_witness :
  close flag_set_no_write = (Raise OSError, flag_set_no_write).
Proof.
  apply (@close_fails_before_release Demo.geosoft flag_set_no_write);
    reflexivity.
Defined.

(** The worked voxset with the cursor at the third cell. *)
Definition demo_midway : St :=
  mkSt (set_next 2 (self Demo.demo)) (world Demo.demo).

Lemma iterate_resumes_witness :
  exists s',
    iterate 3 demo_midway =
    Some (Ok (map (linear_cell Demo.demo_vox) (zfrom 2 2)), s') /\
    _next (self s') = 0.
Proof.
  apply (@iterate_resumes Demo.geosoft Demo.demo_vox demo_midway 3).
  - exact demo_storage_ok.
  - apply set_next_attached. exact demo_attached.
  - simpl. lia.
  - simpl. lia.
Defined.

Lemma open_then_iterate_witness :
  exists s s1,
    open "demo" None Demo.demo_world = Ok s /\
    _gxvox (self s) = Some Demo.demo_vox /\
    _readonly (self s) = Some true /\
    iterate 5 s = Some (Ok (all_cells Demo.demo_vox), s1).
Proof.
  apply (@open_then_iterate Demo.geosoft "demo" None Demo.demo_world Demo.demo_vox 5).
  - reflexivity.
  - exact demo_storage_ok.
  - simpl. lia.
Defined.

Lemma out_of_range_access_is_harmless_witness :
  let s' := snd (__getitem__ (ItemInt 4) Demo.demo) in
  fst (__getitem__ (ItemInt 4) Demo.demo) = Raise IndexError /\
  row_reads (world s') = row_reads (world Demo.demo) /\
  _buffered_plane (self s') = _buffered_plane (self Demo.demo) /\
  _buffered_row (self s') = _buffered_row (self Demo.demo) /\
  _buffer_np (self s') = _buffer_np (self Demo.demo) /\
  _next (self s') = _next (self Demo.demo).
Proof.
  apply (@out_of_range_access_is_harmless Demo.geosoft Demo.demo_vox Demo.demo
           (ItemInt 4)).
  - exact demo_storage_ok.
  - exact demo_attached.
  - simpl. lia.
Defined.

(** A voxel without a point along X. *)
Definition empty_vox : GXVOX :=
  mkGXVOX 5 0 0 2 1 (0, 0, 0, 1, 1, 1)%float
    ([], [0; 1], [0])%float (0, 0, 0, 0, 1, 0)%float
    "WGS 84" (mkGXPG (fun _ _ => None)).

Definition empty_demo : St := __init__ "empty" empty_vox Demo.demo_world.

Lemma linear_index_of_empty_plane_witness :
  __getitem__ (ItemInt 0) empty_demo = (Raise ZeroDivisionError, empty_demo).
Proof.
  apply (@linear_index_of_empty_plane Demo.geosoft empty_demo 0).
  reflexivity.
Defined.

Lemma failed_read_moves_the_key_witness :
  let s' := snd (__getitem__ (ItemTuple 0 (-1) 0) Demo.demo) in
  fst (__getitem__ (ItemTuple 0 (-1) 0) Demo.demo) = Raise GXAPIError /\
  row_reads (world s') = (0, -1) :: row_reads (world Demo.demo) /\
  _buffered_plane (self s') = Some 0 /\
  _buffered_row (self s') = Some (-1) /\
  _buffer_np (self s') = _buffer_np (self Demo.demo) /\
  (forall ix',
     row_reads (world (snd (__getitem__ (ItemTuple ix' (-1) 0) s'))) =
     row_reads (world s')).
Proof.
  apply (@failed_read_moves_the_key Demo.geosoft Demo.demo_vox Demo.demo 0 (-1) 0
           (0, 1, 0)%float).
  - exact demo_attached.
  - reflexivity.
  - reflexivity.
  - reflexivity.
Defined.

Lemma location_arrays_loaded_once_witness :
  let s1 := snd (x_locations Demo.demo) in
  x_locations Demo.demo = (Ok (Some (xs_of Demo.demo_vox)), s1) /\
  y_locations Demo.demo = (Ok (Some (ys_of Demo.demo_vox)), s1) /\
  z_locations Demo.demo = (Ok (Some (zs_of Demo.demo_vox)), s1) /\
  (forall h,
     let t := mkSt (set_gxvox h (self s1)) (world s1) in
     x_locations t = (Ok (Some (xs_of Demo.demo_vox)), t) /\
     y_locations t = (Ok (Some (ys_of Demo.demo_vox)), t) /\
     z_locations t = (Ok (Some (zs_of Demo.demo_vox)), t)).
Proof.
  apply (@location_arrays_loaded_once Demo.geosoft Demo.demo_vox Demo.demo).
  exact demo_attached.
Defined.

Lemma coordinate_system_fetched_once_witness :
  let s1 := snd (coordinate_system Demo.demo) in
  coordinate_system Demo.demo = (Ok (Some (ipj Demo.demo_vox)), s1) /\
  (forall h,
     let t := mkSt (set_gxvox h (self s1)) (world s1) in
     coordinate_system t = (Ok (Some (ipj Demo.demo_vox)), t)).
Proof.
  apply (@coordinate_system_fetched_once Demo.geosoft Demo.demo_vox Demo.demo);
    reflexivity.
Defined.

Lemma release_pg_keeps_access_witness :
  let s1 := snd (_release_pg Demo.demo) in
  let s2 := snd (__getitem__ (ItemTuple 1 1 0) s1) in
  _pg_ (self s1) = None /\
  fst (__getitem__ (ItemTuple 1 1 0) s1) = Ok (the_cell Demo.demo_vox 1 1 0) /\
  row_reads (world s2) =
    ((if cached (self Demo.demo) 0 1 then [] else [(0, 1)]) ++
     row_reads (world Demo.demo))%list /\
  _pg_ (self s2) =
    (if cached (self Demo.demo) 0 1 then None else Some (pager Demo.demo_vox)).
Proof.
  apply (@release_pg_keeps_access Demo.geosoft Demo.demo_vox Demo.demo 1 1 0).
  - exact demo_storage_ok.
  - exact demo_attached.
  - unfold in_range. simpl. lia.
Defined.

Lemma iteration_reads_each_row_once_witness :
  exists s1,
    iterate 5 Demo.demo = Some (Ok (all_cells Demo.demo_vox), s1) /\
    row_reads (world s1) =
      (rev (all_rows Demo.demo_vox) ++ row_reads (world Demo.demo))%list /\
    List.length (all_rows Demo.demo_vox) = Z.to_nat (2 * 1).
Proof.
  apply (@iteration_reads_each_row_once Demo.geosoft Demo.demo_vox Demo.demo 5).
  - exact demo_storage_ok.
  - exact demo_attached.
  - reflexivity.
  - reflexivity.
  - simpl. lia.
Defined.

Lemma posix_names_roundtrip_witness :
  _voxset_file_name "demo" = "demo.geosoft_voxel" /\
  _voxset_file_name ("demo" ++ ".geosoft_voxel") = "demo.geosoft_voxel" /\
  _voxset_name (_voxset_file_name "demo") = "demo".
Proof.
  apply (posix_names_roundtrip "demo").
  reflexivity.
Defined.

(** A directory with the voxel, its sidecar and another file. *)
Definition demo_disk : Disk :=
  mkDisk ["demo.geosoft_voxel"; "demo.geosoft_voxel.xml"; "other.txt"]
    (fun _ => false).


Lemma delete_files_twice_witness :
  delete_files (Some "demo.geosoft_voxel")
    (snd (delete_files (Some "demo.geosoft_voxel") demo_disk)) =
  (Ok tt, snd (delete_files (Some "demo.geosoft_voxel") demo_disk)).
Proof.
  apply (delete_files_twice (Some "demo.geosoft_voxel") demo_disk).
  reflexivity.
Defined.

(** What is left in the directory, and the name that [os.remove] rejects. *)
Example demo_disk_after :
  present (snd (delete_files (Some "demo.geosoft_voxel") demo_disk)) = ["other.txt"] /\
  delete_files (Some (String "000" "a")) demo_disk = (Raise ValueError, demo_disk).
Proof. split; reflexivity. Qed.
